(** * Imbi API: components endpoint and project aggregate loader

    A shallow embedding of

    - [imbi/endpoints/components/handlers.py] (the component record
      handler: [patch], [_project_update_required],
      [_update_affected_projects], and the SQL statements it issues),
    - [imbi/endpoints/components.py] (the [Component] model, the
      pagination tokens and their [with_first]),
    - [imbi/models.py] (the [project] aggregate loader and its sub-loads),

    together with the properties of the update/consistency engine that
    the specification states about them.

    Python values are a tagged tree, dictionaries are insertion-ordered
    association lists, handlers are computations in a state-and-exception
    monad over the database tables, and every [await] on the database is a
    suspension point at which concurrent requests may change the tables. *)

From Stdlib Require Import ZArith Ascii String DecimalString List Bool Lia.
From Stdlib Require Import OrderedTypeEx.
From stdpp Require Import base option list gmap strings.

Import ListNotations.
Local Open Scope string_scope.
Local Open Scope Z_scope.

(** ** Python values and dictionaries *)

Module py.

(** The values that occur in snapshots, request bodies and SQL
    parameters: JSON data plus instances of [semver.VersionRange], whose
    class is a parameter [R] of the development. *)
#[warnings="-register-all"]
Inductive value (R : Type) : Type :=
| VNone
| VBool (b : bool)
| VInt (z : Z)
| VStr (s : string)
| VList (items : list (value R))
| VDict (entries : list (string * value R))
| VRange (r : R).

Arguments VNone {R}.
Arguments VBool {R} b.
Arguments VInt {R} z.
Arguments VStr {R} s.
Arguments VList {R} items.
Arguments VDict {R} entries.
Arguments VRange {R} r.

(** A [dict] with [str] keys, in insertion order. *)
Definition dict (R : Type) : Type := list (string * value R).

Fixpoint dict_get {R} (k : string) (d : dict R) : option (value R) :=
  match d with
  | [] => None
  | (k', v) :: d' => if String.eqb k k' then Some v else dict_get k d'
  end.

(** [d[k] = v]: an existing key keeps its position, a new key is
    appended. *)
Fixpoint dict_set {R} (k : string) (v : value R) (d : dict R) : dict R :=
  match d with
  | [] => [(k, v)]
  | (k', v') :: d' =>
      if String.eqb k k' then (k, v) :: d' else (k', v') :: dict_set k v d'
  end.

(** [del d[k]] on a key that is present. *)
Fixpoint dict_del {R} (k : string) (d : dict R) : dict R :=
  match d with
  | [] => []
  | (k', v') :: d' =>
      if String.eqb k k' then d' else (k', v') :: dict_del k d'
  end.

(** [d.update(other)]. *)
Definition dict_update {R} (d other : dict R) : dict R :=
  fold_left (fun acc kv => dict_set (fst kv) (snd kv) acc) other d.

Definition dict_keys {R} (d : dict R) : list string := map fst d.

End py.

Export py.

(** ** Exceptions *)

Module errors.

(** Errors reported by PostgreSQL through psycopg2. *)
Inductive pg_error : Type :=
| UniqueViolation
| ForeignKeyViolation
| OtherPgError (sqlstate : string).

(** The exception classes of [jsonpatch] and [jsonpointer]. *)
Inductive jsonpatch_error : Type :=
| InvalidJsonPatch
| JsonPatchConflict
| JsonPatchTestFailed
| JsonPointerException.

(** One entry of [pydantic.ValidationError.errors()]. *)
Record ErrorDetails : Type := {
  err_type : string;
  err_loc : string;
  err_msg : string
}.

(** What a handler or a loader can raise.  The first four are the
    application errors of [imbi.errors]; the others are exceptions of the
    libraries and of Python that reach the caller as they are. *)
Inductive exn : Type :=
| ItemNotFound
| BadJsonPatch (cause : jsonpatch_error)
| BadRequest (title detail : string) (validation_errors : list ErrorDetails)
| DatabaseError (message : string) (title : option string)
    (error : option pg_error)
| JsonPatchRaised (e : jsonpatch_error)
| PydanticValidationError (errs : list ErrorDetails)
| KeyError (key : string)
| PsycopgError (e : pg_error)
| TypeError.

(** A computation that returns or raises. *)
Inductive result (A : Type) : Type :=
| Return (a : A)
| Raise (e : exn).

Arguments Return {A} a.
Arguments Raise {A} e.

End errors.

Export errors.

(** ** [imbi.semver] *)

Module semver.

(** [semver.VersionRange] is imported by the component model but its
    class body is not part of the sources at hand, so what the handlers
    use of it is taken as a parameter: how its validator answers a [str]
    (the range, or the message of the violation that pydantic reports);
    what it does with an input that is no [str], where it may also raise
    an exception that is no validation error, as the [TypeError] for a
    number; what [model_dump] yields for a range; how a range compares
    ([__eq__]) with another value; and the text psycopg2 sends for it. *)
Class VersionRange (R : Type) : Type := {
  range_validate_str : string -> string + R;
  range_validate_other : value R -> result (string + R);
  range_dump : R -> value R;
  range_eq : R -> value R -> bool;
  range_sql : R -> string
}.

(** The validator on an input. *)
Definition range_validate {R} {VR : VersionRange R} (v : value R)
  : result (string + R) :=
  match v with
  | VStr s => Return (range_validate_str s)
  | _ => range_validate_other v
  end.

End semver.

Export semver.

(** ** Python [==] on values *)

Module pyeq.

Section Equality.

Context {R : Type} {VR : VersionRange R}.

Definition bool_as_int (b : bool) : Z := if b then 1 else 0.

(** [a == b].  A range decides through its own [__eq__] (also when it is
    the right operand, by reflection); [True == 1]; lists compare
    element-wise and dictionaries independently of insertion order. *)
Fixpoint py_eq (a b : value R) {struct a} : bool :=
  match a with
  | VRange r => range_eq r b
  | VNone =>
      match b with
      | VNone => true
      | VRange r => range_eq r a
      | _ => false
      end
  | VBool x =>
      match b with
      | VBool y => Bool.eqb x y
      | VInt y => Z.eqb (bool_as_int x) y
      | VRange r => range_eq r a
      | _ => false
      end
  | VInt x =>
      match b with
      | VInt y => Z.eqb x y
      | VBool y => Z.eqb x (bool_as_int y)
      | VRange r => range_eq r a
      | _ => false
      end
  | VStr x =>
      match b with
      | VStr y => String.eqb x y
      | VRange r => range_eq r a
      | _ => false
      end
  | VList xs =>
      match b with
      | VList ys =>
          (fix each (xs ys : list (value R)) {struct xs} : bool :=
             match xs, ys with
             | [], [] => true
             | x :: xs', y :: ys' => py_eq x y && each xs' ys'
             | _, _ => false
             end) xs ys
      | VRange r => range_eq r a
      | _ => false
      end
  | VDict xs =>
      match b with
      | VDict ys =>
          Nat.eqb (length xs) (length ys) &&
          (fix each (xs : list (string * value R)) {struct xs} : bool :=
             match xs with
             | [] => true
             | (k, x) :: xs' =>
                 match dict_get k ys with
                 | Some y => py_eq x y && each xs'
                 | None => false
                 end
             end) xs
      | VRange r => range_eq r a
      | _ => false
      end
  end.

End Equality.

End pyeq.

Export pyeq.

(** ** [imbi/endpoints/components.py]: the component model *)

Module components.

Inductive ComponentStatus : Type := ACTIVE | DEPRECATED | FORBIDDEN.

Definition status_value (s : ComponentStatus) : string :=
  match s with
  | ACTIVE => "Active"
  | DEPRECATED => "Deprecated"
  | FORBIDDEN => "Forbidden"
  end.

Definition status_eqb (a b : ComponentStatus) : bool :=
  match a, b with
  | ACTIVE, ACTIVE | DEPRECATED, DEPRECATED | FORBIDDEN, FORBIDDEN => true
  | _, _ => false
  end.

Definition status_of_string (s : string) : option ComponentStatus :=
  if String.eqb s "Active" then Some ACTIVE
  else if String.eqb s "Deprecated" then Some DEPRECATED
  else if String.eqb s "Forbidden" then Some FORBIDDEN
  else None.

Section Model.

Context {R : Type} {VR : VersionRange R}.

(** [class Component(pydantic.BaseModel)].  In the class body the
    [constr(pattern=...)] object is assigned to [package_url] as its
    default value, next to the annotation [str]: the field is a plain
    [str] that may be absent, in which case the attribute is that default
    object, here [None]. *)
Record Component : Type := {
  package_url : option string;
  name : string;
  status : ComponentStatus;
  icon_class : string;
  active_version : option R;
  home_page : option string
}.

Definition missing (loc : string) : ErrorDetails :=
  {| err_type := "missing"; err_loc := loc; err_msg := "Field required" |}.

Definition string_type (loc : string) : ErrorDetails :=
  {| err_type := "string_type"; err_loc := loc;
     err_msg := "Input should be a valid string" |}.

Definition enum_error (loc : string) : ErrorDetails :=
  {| err_type := "enum"; err_loc := loc;
     err_msg := "Input should be 'Active', 'Deprecated' or 'Forbidden'" |}.

Definition value_error (loc msg : string) : ErrorDetails :=
  {| err_type := "value_error"; err_loc := loc; err_msg := msg |}.

(** A required field of type [str]. *)
Definition validate_str (loc : string) (d : dict R) : ErrorDetails + string :=
  match dict_get loc d with
  | None => inl (missing loc)
  | Some (VStr s) => inr s
  | Some _ => inl (string_type loc)
  end.

(** A field of type [str] that has a default. *)
Definition validate_str_default (loc : string) (d : dict R)
  : ErrorDetails + option string :=
  match dict_get loc d with
  | None => inr None
  | Some (VStr s) => inr (Some s)
  | Some _ => inl (string_type loc)
  end.

(** A required field of type [Union[str, None]]. *)
Definition validate_opt_str (loc : string) (d : dict R)
  : ErrorDetails + option string :=
  match dict_get loc d with
  | None => inl (missing loc)
  | Some VNone => inr None
  | Some (VStr s) => inr (Some s)
  | Some _ => inl (string_type loc)
  end.

(** A required field of type [ComponentStatus]. *)
Definition validate_status (loc : string) (d : dict R)
  : ErrorDetails + ComponentStatus :=
  match dict_get loc d with
  | None => inl (missing loc)
  | Some (VStr s) =>
      match status_of_string s with
      | Some st => inr st
      | None => inl (enum_error loc)
      end
  | Some _ => inl (enum_error loc)
  end.

(** A required field of type [Union[semver.VersionRange, None]]: the
    violation or the value, unless the validator of the class raises an
    exception that is no validation error. *)
Definition validate_opt_range (loc : string) (d : dict R)
  : result (ErrorDetails + option R) :=
  match dict_get loc d with
  | None => Return (inl (missing loc))
  | Some VNone => Return (inr None)
  | Some v =>
      match range_validate v with
      | Raise e => Raise e
      | Return (inr r) => Return (inr (Some r))
      | Return (inl msg) => Return (inl (value_error loc msg))
      end
  end.

Definition field_errors {A} (r : ErrorDetails + A) : list ErrorDetails :=
  match r with inl e => [e] | inr _ => [] end.

(** [Component.model_validate(obj)] on a dictionary: either the model,
    or the violations in the order of the fields of the class, which is
    pydantic's [ValidationError]; an exception of a validator that is no
    validation error is raised as it is, whatever the other fields hold.
    Keys that are not fields are ignored. *)
Definition model_validate (d : dict R)
  : result (list ErrorDetails + Component) :=
  let f1 := validate_str_default "package_url" d in
  let f2 := validate_str "name" d in
  let f3 := validate_status "status" d in
  let f4 := validate_str "icon_class" d in
  let f6 := validate_opt_str "home_page" d in
  match validate_opt_range "active_version" d with
  | Raise e => Raise e
  | Return f5 =>
      Return
        match f1, f2, f3, f4, f5, f6 with
        | inr a, inr b, inr c, inr e, inr f, inr g =>
            inr {| package_url := a; name := b; status := c;
                   icon_class := e; active_version := f; home_page := g |}
        | _, _, _, _, _, _ =>
            inl (field_errors f1 ++ field_errors f2 ++ field_errors f3 ++
                 field_errors f4 ++ field_errors f5 ++ field_errors f6)%list
        end
  end.

Definition opt_str_value (o : option string) : value R :=
  match o with Some s => VStr s | None => VNone end.

(** [Component.model_dump()]: the fields in the order of the class.  A
    status is a [str] enumeration member, which equals its value. *)
Definition model_dump (c : Component) : dict R :=
  [ ("package_url", opt_str_value (package_url c));
    ("name", VStr (name c));
    ("status", VStr (status_value (status c)));
    ("icon_class", VStr (icon_class c));
    ("active_version",
      match active_version c with
      | Some r => range_dump r
      | None => VNone
      end);
    ("home_page", opt_str_value (home_page c)) ].

End Model.

Arguments Component R : clear implicits.

End components.

(** ** The relational store *)

Module store.

(** [v1.components]; [package_url] is its primary key. *)
Record ComponentRow : Type := {
  c_package_url : string;
  c_name : string;
  c_status : string;
  c_home_page : option string;
  c_icon_class : string;
  c_active_version : option string;
  c_created_at : Z;
  c_created_by : string;
  c_last_modified_at : option Z;
  c_last_modified_by : option string
}.

(** [v1.component_versions]. *)
Record ComponentVersionRow : Type := {
  v_id : Z;
  v_package_url : string;
  v_version : string
}.

(** [v1.project_components]. *)
Record ProjectComponentRow : Type := {
  p_project_id : Z;
  p_package_url : string;
  p_version_id : Z
}.

(** [v1.project_facts], where the component score of a project lives. *)
Record ProjectFactRow : Type := {
  f_project_id : Z;
  f_fact_type_id : Z;
  f_value : option string;
  f_recorded_by : string
}.

(** The tables the component handlers read and write, the identifiers of
    [v1.projects], and the clock behind [CURRENT_TIMESTAMP]. *)
Record Database : Type := {
  components : list ComponentRow;
  component_versions : list ComponentVersionRow;
  project_components : list ProjectComponentRow;
  project_facts : list ProjectFactRow;
  projects : list Z;
  current_timestamp : Z
}.

Definition with_components (cs : list ComponentRow) (db : Database)
  : Database :=
  {| components := cs;
     component_versions := component_versions db;
     project_components := project_components db;
     project_facts := project_facts db;
     projects := projects db;
     current_timestamp := current_timestamp db |}.

(** What [postgres_execute] hands back: the number of rows selected or
    affected and the rows, each a dictionary.  A result is falsy when its
    row count is zero; [row] is the row of a single-row result. *)
Record QueryResult (R : Type) : Type := {
  row_count : nat;
  rows : list (dict R)
}.

Arguments row_count {R} q.
Arguments rows {R} q.

Definition truthy {R} (q : QueryResult R) : bool :=
  negb (Nat.eqb (row_count q) 0).

Definition row {R} (q : QueryResult R) : option (dict R) :=
  match rows q with
  | [r] => Some r
  | _ => None
  end.

(** The outcome of sending one statement. *)
Inductive sql_outcome (A : Type) : Type :=
| SqlOk (a : A) (db : Database)
| SqlMissingParameter (key : string)
| SqlError (e : pg_error).

Arguments SqlOk {A} a db.
Arguments SqlMissingParameter {A} key.
Arguments SqlError {A} e.

Section Statements.

Context {R : Type} {VR : VersionRange R}.

Definition opt_text (o : option string) : value R :=
  match o with Some s => VStr s | None => VNone end.

Definition opt_time (o : option Z) : value R :=
  match o with Some t => VInt t | None => VNone end.

(** The columns selected by [GET_SQL], as the cursor returns them. *)
Definition component_record (c : ComponentRow) : dict R :=
  [ ("package_url", VStr (c_package_url c));
    ("name", VStr (c_name c));
    ("status", VStr (c_status c));
    ("home_page", opt_text (c_home_page c));
    ("icon_class", VStr (c_icon_class c));
    ("active_version", opt_text (c_active_version c));
    ("created_at", VInt (c_created_at c));
    ("created_by", VStr (c_created_by c));
    ("last_modified_at", opt_time (c_last_modified_at c));
    ("last_modified_by", opt_text (c_last_modified_by c)) ].

(** [column = %(param)s] on a text column: only a [str] parameter can
    equal a stored text. *)
Definition text_equals (column : string) (param : value R) : bool :=
  match param with
  | VStr s => String.eqb column s
  | _ => false
  end.

(** How psycopg2 and the column type turn a parameter into the content
    of a text column: [None] is NULL, a [str] is itself, a range is its
    text; other values are not text. *)
Definition as_text (v : value R) : option (option string) :=
  match v with
  | VNone => Some None
  | VStr s => Some (Some s)
  | VRange r => Some (Some (range_sql r))
  | _ => None
  end.

(** [GET_SQL]: [SELECT ... FROM v1.components WHERE package_url =
    %(package_url)s]. *)
Definition GET_SQL (params : dict R) (db : Database)
  : sql_outcome (QueryResult R) :=
  match dict_get "package_url" params with
  | None => SqlMissingParameter "package_url"
  | Some p =>
      let found :=
        List.filter (fun c => text_equals (c_package_url c) p) (components db) in
      SqlOk {| row_count := length found;
               rows := map component_record found |} db
  end.

(** Binding the named parameters of a statement: a key that the
    dictionary lacks is a [KeyError] of the driver, a value a text column
    cannot hold is an error of the server. *)
Inductive bind_error : Type :=
| MissingParameter (key : string)
| Rejected (e : pg_error).

Definition datatype_mismatch : pg_error := OtherPgError "42804".
Definition not_null_violation : pg_error := OtherPgError "23502".

Definition bind_any (k : string) (params : dict R)
  : bind_error + value R :=
  match dict_get k params with
  | None => inl (MissingParameter k)
  | Some v => inr v
  end.

Definition bind_nullable (k : string) (params : dict R)
  : bind_error + option string :=
  match dict_get k params with
  | None => inl (MissingParameter k)
  | Some v =>
      match as_text v with
      | Some t => inr t
      | None => inl (Rejected datatype_mismatch)
      end
  end.

Definition bind_text (k : string) (params : dict R)
  : bind_error + string :=
  match bind_nullable k params with
  | inl e => inl e
  | inr (Some s) => inr s
  | inr None => inl (Rejected not_null_violation)
  end.

Definition and_then {E A B} (r : E + A) (k : A -> E + B) : E + B :=
  match r with
  | inl e => inl e
  | inr a => k a
  end.

(** The assignments of [PATCH_SQL], in the order of its placeholders. *)
Record PatchAssignment : Type := {
  set_package_url : string;
  set_name : string;
  set_status : string;
  set_home_page : option string;
  set_icon_class : string;
  set_active_version : option string;
  set_last_modified_by : option string;
  where_package_url : value R
}.

Definition bind_patch (params : dict R) : bind_error + PatchAssignment :=
  and_then (bind_text "package_url" params) (fun u =>
  and_then (bind_text "name" params) (fun n =>
  and_then (bind_text "status" params) (fun s =>
  and_then (bind_nullable "home_page" params) (fun h =>
  and_then (bind_text "icon_class" params) (fun i =>
  and_then (bind_nullable "active_version" params) (fun a =>
  and_then (bind_nullable "username" params) (fun m =>
  and_then (bind_any "current_package_url" params) (fun c =>
  inr {| set_package_url := u; set_name := n; set_status := s;
         set_home_page := h; set_icon_class := i;
         set_active_version := a; set_last_modified_by := m;
         where_package_url := c |})))))))).

Definition assign (a : PatchAssignment) (now : Z) (c : ComponentRow)
  : ComponentRow :=
  {| c_package_url := set_package_url a;
     c_name := set_name a;
     c_status := set_status a;
     c_home_page := set_home_page a;
     c_icon_class := set_icon_class a;
     c_active_version := set_active_version a;
     c_created_at := c_created_at c;
     c_created_by := c_created_by c;
     c_last_modified_at := Some now;
     c_last_modified_by := set_last_modified_by a |}.

Definition selected (a : PatchAssignment) (c : ComponentRow) : bool :=
  text_equals (c_package_url c) (where_package_url a).

(** The rows that refer to a component follow its key when it is
    renamed (the foreign keys of the schema, which is not among the
    sources, are taken to be [ON UPDATE CASCADE]). *)
Definition rename_version (a : PatchAssignment) (v : ComponentVersionRow)
  : ComponentVersionRow :=
  if text_equals (v_package_url v) (where_package_url a)
  then {| v_id := v_id v; v_package_url := set_package_url a;
          v_version := v_version v |}
  else v.

Definition rename_project_component (a : PatchAssignment)
    (p : ProjectComponentRow) : ProjectComponentRow :=
  if text_equals (p_package_url p) (where_package_url a)
  then {| p_project_id := p_project_id p;
          p_package_url := set_package_url a;
          p_version_id := p_version_id p |}
  else p.

(** [PATCH_SQL]: [UPDATE v1.components SET package_url =
    %(package_url)s, ..., last_modified_at = CURRENT_TIMESTAMP,
    last_modified_by = %(username)s WHERE package_url =
    %(current_package_url)s].  The result is the number of rows
    affected. *)
Definition PATCH_SQL (params : dict R) (db : Database) : sql_outcome nat :=
  match bind_patch params with
  | inl (MissingParameter k) => SqlMissingParameter k
  | inl (Rejected e) => SqlError e
  | inr a =>
      let hit := List.filter (selected a) (components db) in
      let clash :=
        existsb (fun c => negb (selected a c) &&
                          String.eqb (c_package_url c) (set_package_url a))
                (components db) in
      match hit with
      | [] => SqlOk 0%nat db
      | _ =>
          if clash || Nat.ltb 1 (length hit) then SqlError UniqueViolation
          else
            SqlOk (length hit)
              {| components :=
                   map (fun c => if selected a c
                                 then assign a (current_timestamp db) c
                                 else c) (components db);
                 component_versions :=
                   map (rename_version a) (component_versions db);
                 project_components :=
                   map (rename_project_component a) (project_components db);
                 project_facts := project_facts db;
                 projects := projects db;
                 current_timestamp := current_timestamp db |}
      end
  end.

Fixpoint distinct (l : list Z) : list Z :=
  match l with
  | [] => []
  | x :: l' => x :: List.filter (fun y => negb (Z.eqb x y)) (distinct l')
  end.

(** [SELECT DISTINCT project_id FROM v1.project_components WHERE
    package_url = %(package_url)s]: the [project_id] of each row of the
    result. *)
Definition AFFECTED_PROJECTS_SQL (params : dict R) (db : Database)
  : sql_outcome (list Z) :=
  match dict_get "package_url" params with
  | None => SqlMissingParameter "package_url"
  | Some p =>
      SqlOk
        (distinct
           (map p_project_id
              (List.filter (fun pc => text_equals (p_package_url pc) p)
                 (project_components db))))
        db
  end.

End Statements.

End store.

Export store.

(** ** The collaborators of the handlers *)

Module jsonpatch.

(** The [jsonpatch] library: building a [JsonPatch] from the request
    body checks the shape of the document and of its pointers;
    [apply] works on a deep copy of the document and returns the patched
    dictionary, or raises when an operation does not apply. *)
Class JsonPatchLibrary (R : Type) : Type := {
  patch_t : Type;
  JsonPatch : value R -> jsonpatch_error + patch_t;
  apply : patch_t -> dict R -> jsonpatch_error + dict R
}.

End jsonpatch.

Export jsonpatch.

Module scoring.

(** [scoring.update_component_score_for_project] recomputes the
    component score of one project and upserts it; its statements either
    go through or fail in the database under some metric name. *)
Class Scoring : Type := {
  score_statements : Z -> Database -> (string * pg_error) + Database
}.

End scoring.

Export scoring.

(** ** [imbi/endpoints/components/handlers.py] *)

Module handlers.

Import components.

(** What a request leaves behind besides its response. *)
Inductive Event : Type :=
| Executed (metric_name : string)
| ScoreUpdate (project_id : Z)
| LogInfo (affected : nat)
| LogWarning (project_id : Z).

Definition event_eqb (a b : Event) : bool :=
  match a, b with
  | Executed x, Executed y => String.eqb x y
  | ScoreUpdate x, ScoreUpdate y => Z.eqb x y
  | LogInfo x, LogInfo y => Nat.eqb x y
  | LogWarning x, LogWarning y => Z.eqb x y
  | _, _ => false
  end.

(** The state a request runs against: the tables, the changes that other
    requests commit while this one is suspended (one per suspension
    point, in order), and the events so far. *)
Record World : Type := {
  database : Database;
  pending : list (Database -> Database);
  trace : list Event
}.

Definition M (A : Type) : Type := World -> result A * World.

Definition ret {A} (a : A) : M A := fun w => (Return a, w).

Definition raise {A} (e : exn) : M A := fun w => (Raise e, w).

Definition bind {A B} (m : M A) (k : A -> M B) : M B :=
  fun w =>
    match m w with
    | (Return a, w') => k a w'
    | (Raise e, w') => (Raise e, w')
    end.

Declare Scope handler_scope.
Delimit Scope handler_scope with handler.
Notation "x <- m ;; k" := (bind m (fun x => k))
  (at level 100, m at next level, right associativity) : handler_scope.
Notation "m ;; k" := (bind m (fun _ => k))
  (at level 100, right associativity) : handler_scope.
Local Open Scope handler_scope.

(** [try: body except E: handler], where [handler e] is [None] for an
    exception the clause does not name. *)
Definition try_except {A} (body : M A) (handler : exn -> option (M A))
  : M A :=
  fun w =>
    match body w with
    | (Return a, w') => (Return a, w')
    | (Raise e, w') =>
        match handler e with
        | Some h => h w'
        | None => (Raise e, w')
        end
    end.

Definition emit (e : Event) : M unit :=
  fun w =>
    (Return tt,
     {| database := database w; pending := pending w;
        trace := trace w ++ [e] |}).

(** A suspension point: the next concurrent change, if any, lands. *)
Definition suspend : M unit :=
  fun w =>
    match pending w with
    | [] => (Return tt, w)
    | change :: later =>
        (Return tt,
         {| database := change (database w); pending := later;
            trace := trace w |})
    end.

Definition set_database (db : Database) : M unit :=
  fun w =>
    (Return tt,
     {| database := db; pending := pending w; trace := trace w |}).

Definition get_database : M Database := fun w => (Return (database w), w).

(** The settings consulted by the handler: the value under
    ['components'], when there is one. *)
Record Settings (R : Type) : Type := {
  settings_components : option (dict R)
}.

Arguments settings_components {R} s.

Inductive Response (R : Type) : Type :=
| NotModified
| Ok (body : dict R).

Arguments NotModified {R}.
Arguments Ok {R} body.

Section Handlers.

Context {R : Type} {VR : VersionRange R} {JP : JsonPatchLibrary R}
        {SC : Scoring}.

(** The request handler: its settings, the authenticated user, and the
    error callback it inherits, which names the exception raised for a
    database error. *)
Record RequestHandler : Type := {
  settings : Settings R;
  username : string;
  on_postgres_error : string -> pg_error -> exn
}.

Variable self : RequestHandler.

(** [await self.postgres_execute(sql, parameters, metric_name)]. *)
Definition postgres_execute {A} (sql : dict R -> Database -> sql_outcome A)
    (parameters : dict R) (metric_name : string) : M A :=
  suspend ;;
  emit (Executed metric_name) ;;
  db <- get_database ;;
  match sql parameters db with
  | SqlOk a db' => set_database db' ;; ret a
  | SqlMissingParameter k => raise (KeyError k)
  | SqlError e => raise (on_postgres_error self metric_name e)
  end.

(** Modelled from the spec: [_get] of the base record handler is not
    among the sources; per "getOne(id) -> Snapshot | NotFound" and "re-read
    ... for response" it selects the record with [GET_SQL] and responds
    with it, or raises [ItemNotFound]. *)
Definition _get (kwargs : dict R) : M (Response R) :=
  result <- postgres_execute GET_SQL kwargs "get-component" ;;
  if negb (truthy result) then raise ItemNotFound
  else ret (Ok (default [] (row result))).

(** [all(original_dict[k] == updated_dict[k] for k in updated_dict)]:
    the keys of the patched dictionary in order, stopping at the first
    difference; a key the original lacks is a [KeyError]. *)
Fixpoint all_equal (original_dict updated_dict : dict R)
    (keys : list string) : result bool :=
  match keys with
  | [] => Return true
  | k :: keys' =>
      match dict_get k original_dict, dict_get k updated_dict with
      | Some a, Some b =>
          if py_eq a b then all_equal original_dict updated_dict keys'
          else Return false
      | _, _ => Raise (KeyError k)
      end
  end.

Definition lift {A} (r : result A) : M A := fun w => (r, w).

(** [self.settings.get('components', {}) or {}]. *)
Definition config : dict R :=
  match settings_components (settings self) with
  | Some [] | None => []
  | Some d => d
  end.

(** [updated.active_version != original.active_version] on two validated
    models: [None] or a range on each side. *)
Definition active_version_differs (updated original : Component R) : bool :=
  match active_version updated, active_version original with
  | None, None => false
  | Some u, Some o => negb (range_eq u (VRange o))
  | Some u, None => negb (range_eq u VNone)
  | None, Some o => negb (range_eq o VNone)
  end.

Definition _project_update_required (original updated : Component R)
  : bool :=
  match dict_get "project_fact_type_id" config with
  | None | Some VNone => false
  | Some _ =>
      if negb (status_eqb (status updated) (status original)) then true
      else if status_eqb (status updated) ACTIVE
              && active_version_differs updated original then true
      else false
  end.

(** The error callback defined inside [_update_affected_projects]:
    foreign key violations are raised as they are, everything else goes
    to the handler's own callback. *)
Definition cascade_on_postgres_error (metric_name : string) (exc : pg_error)
  : exn :=
  match exc with
  | ForeignKeyViolation => PsycopgError ForeignKeyViolation
  | _ => on_postgres_error self metric_name exc
  end.

(** [await scoring.update_component_score_for_project(project_id,
    connector, application)] on a connector built with [on_error]. *)
Definition update_component_score_for_project (project_id : Z)
    (on_error : string -> pg_error -> exn) : M unit :=
  suspend ;;
  emit (ScoreUpdate project_id) ;;
  db <- get_database ;;
  match score_statements project_id db with
  | inr db' => set_database db'
  | inl (metric_name, e) => raise (on_error metric_name e)
  end.

Definition is_foreign_key_violation (e : exn) : bool :=
  match e with
  | PsycopgError ForeignKeyViolation => true
  | _ => false
  end.

(** The [for project_id in project_ids] loop with its [try]/[except]. *)
Fixpoint fan_out (project_ids : list Z) : M unit :=
  match project_ids with
  | [] => ret tt
  | project_id :: rest =>
      try_except
        (update_component_score_for_project project_id
           cascade_on_postgres_error)
        (fun exc =>
           if is_foreign_key_violation exc
           then Some (emit (LogWarning project_id))
           else None) ;;
      fan_out rest
  end.

Definition _update_affected_projects (package_url : value R) : M unit :=
  result <- postgres_execute AFFECTED_PROJECTS_SQL
              [("package_url", package_url)] "retrieve-affected-projects" ;;
  match result with
  | [] => ret tt
  | _ =>
      let project_ids : gset Z := list_to_set result in
      emit (LogInfo (size project_ids)) ;;
      fan_out (elements project_ids)
  end.

Definition first_msg (all_errors : list ErrorDetails) : string :=
  match all_errors with
  | e :: _ => err_msg e
  | [] => ""
  end.

(** [RecordRequestHandler.patch], for the request
    [PATCH /components/<package_url>] with the parsed body
    [request_body]. *)
Definition patch (package_url : string) (request_body : value R)
  : M (Response R) :=
  result <- postgres_execute GET_SQL [("package_url", VStr package_url)]
              "get-component" ;;
  if negb (truthy result) then raise ItemNotFound else
  match model_validate (default [] (row result)) with
  | Raise e => raise e
  | Return (inl errs) => raise (PydanticValidationError errs)
  | Return (inr original) =>
      let original_dict := model_dump original in
      match JsonPatch request_body with
      | inl error => raise (BadJsonPatch error)
      | inr p =>
          match apply p original_dict with
          | inl error => raise (JsonPatchRaised error)
          | inr updated_dict =>
              same <- lift (all_equal original_dict updated_dict
                              (dict_keys updated_dict)) ;;
              if same then ret NotModified else
              match model_validate updated_dict with
              | Raise e => raise e
              | Return (inl all_errors) =>
                  raise (BadRequest "Invalid Component generated by update"
                           (first_msg all_errors) all_errors)
              | Return (inr updated) =>
                  let updated_dict :=
                    dict_update updated_dict
                      [ ("current_package_url",
                          opt_str_value (components.package_url original));
                        ("username", VStr (username self)) ] in
                  affected <- postgres_execute PATCH_SQL updated_dict
                                "patch-component" ;;
                  if Nat.eqb affected 0
                  then raise (DatabaseError
                                "No rows were returned from PATCH_SQL"
                                (Some "failed to update record") None)
                  else
                    (if _project_update_required original updated
                     then _update_affected_projects
                            (opt_str_value (components.package_url updated))
                     else ret tt) ;;
                    _get [("package_url",
                           opt_str_value (components.package_url updated))]
              end
          end
      end
  end.

End Handlers.

Arguments RequestHandler R : clear implicits.

End handlers.


(** ** Listing the components, page by page *)

Module pagination.

Import handlers.
Local Open Scope handler_scope.

Section Listing.

Context {R : Type} {VR : VersionRange R}.

(** [c.package_url > %(starting_package)s] on a text column: no text is
    after NULL. *)
Definition text_after (column : string) (param : value R) : bool :=
  match param with
  | VStr s => String.ltb s column
  | VRange r => String.ltb (range_sql r) column
  | _ => false
  end.

(** The rows of [v1.components AS c LEFT JOIN v1.component_versions AS v
    ... LEFT JOIN v1.project_components AS p ...] that belong to one
    component: the version and the project component of each, where there
    is one. *)
Definition joined (db : Database) (c : ComponentRow)
  : list (option ComponentVersionRow * option ProjectComponentRow) :=
  match List.filter (fun v => String.eqb (v_package_url v) (c_package_url c))
               (component_versions db) with
  | [] => [(None, None)]
  | versions =>
      flat_map
        (fun v =>
           match List.filter (fun p => Z.eqb (p_version_id p) (v_id v))
                        (project_components db) with
           | [] => [(Some v, None)]
           | ps => map (fun p => (Some v, Some p)) ps
           end)
        versions
  end.

Definition count {A} (column : list (option A)) : Z :=
  Z.of_nat (length (List.filter (fun o => if o is Some _ then true else false)
                      column)).

(** One row of the result of [COLLECTION_SQL]. *)
Definition listed (db : Database) (c : ComponentRow) : dict R :=
  [ ("package_url", VStr (c_package_url c));
    ("name", VStr (c_name c));
    ("status", VStr (c_status c));
    ("home_page", opt_text (c_home_page c));
    ("icon_class", VStr (c_icon_class c));
    ("active_version", opt_text (c_active_version c));
    ("version_count", VInt (count (map fst (joined db c))));
    ("project_count", VInt (count (map snd (joined db c))));
    ("created_at", VInt (c_created_at c));
    ("created_by", VStr (c_created_by c));
    ("last_modified_at", opt_time (c_last_modified_at c));
    ("last_modified_by", opt_text (c_last_modified_by c)) ].

(** [ORDER BY c.package_url ASC]. *)
Fixpoint place (c : ComponentRow) (sorted : list ComponentRow)
  : list ComponentRow :=
  match sorted with
  | [] => [c]
  | x :: sorted' =>
      if String.ltb (c_package_url x) (c_package_url c)
      then x :: place c sorted'
      else c :: sorted
  end.

Fixpoint order_by_package_url (cs : list ComponentRow) : list ComponentRow :=
  match cs with
  | [] => []
  | c :: cs' => place c (order_by_package_url cs')
  end.

(** Whether [c.package_url > %(starting_package)s] compares two texts:
    [None] is NULL and a [str] a text literal, as is a range through its
    text; a number, a [bool], a list or a dictionary is none, and the
    server has no such operator. *)
Definition text_operand (param : value R) : bool :=
  match param with
  | VNone | VStr _ | VRange _ => true
  | VBool _ | VInt _ | VList _ | VDict _ => false
  end.

Definition undefined_function : pg_error := OtherPgError "42883".
Definition invalid_row_count : pg_error := OtherPgError "2201W".
Definition numeric_value_out_of_range : pg_error := OtherPgError "22003".
Definition invalid_text_representation : pg_error := OtherPgError "22P02".

(** How the server reads a text literal as a [bigint]: the number, or
    [None] for a text that is none. *)
Variable bigint_in : string -> option Z.

(** A number as the count of [LIMIT]: it has to be a [bigint] and not
    negative. *)
Definition row_count_of (n : Z) : pg_error + option nat :=
  if (n <? - 2 ^ 63) || (2 ^ 63 <=? n) then inl numeric_value_out_of_range
  else if n <? 0 then inl invalid_row_count
  else inr (Some (Z.to_nat n)).

(** [LIMIT %(limit)s]: [None] is [LIMIT NULL], no limit; an [int] is its
    literal; a [str], or a range through its text, is a text literal that
    the server reads as a [bigint]; a [bool] and the other values are no
    row count. *)
Definition row_limit (limit : value R) : pg_error + option nat :=
  match limit with
  | VNone => inr None
  | VInt n => row_count_of n
  | VStr s =>
      match bigint_in s with
      | Some n => row_count_of n
      | None => inl invalid_text_representation
      end
  | VRange r =>
      match bigint_in (range_sql r) with
      | Some n => row_count_of n
      | None => inl invalid_text_representation
      end
  | VBool _ | VList _ | VDict _ => inl datatype_mismatch
  end.

(** [COLLECTION_SQL]: [SELECT ... FROM v1.components AS c LEFT JOIN ...
    WHERE c.package_url > %(starting_package)s GROUP BY ... ORDER BY
    c.package_url ASC LIMIT %(limit)s]. *)
Definition COLLECTION_SQL (params : dict R) (db : Database)
  : sql_outcome (QueryResult R) :=
  match dict_get "starting_package" params, dict_get "limit" params with
  | None, _ => SqlMissingParameter "starting_package"
  | _, None => SqlMissingParameter "limit"
  | Some start, Some limit =>
      if negb (text_operand start) then SqlError undefined_function else
      match row_limit limit with
      | inl e => SqlError e
      | inr count =>
          let selected :=
            List.filter (fun c => text_after (c_package_url c) start)
                   (components db) in
          let ordered := order_by_package_url selected in
          let page :=
            match count with
            | Some n => firstn n ordered
            | None => ordered
            end in
          SqlOk {| row_count := length page;
                   rows := map (listed db) page |} db
      end
  end.

(** The whole collection in the order of the listing. *)
Definition full_collection (db : Database) : list (dict R) :=
  map (listed db) (order_by_package_url (components db)).

(** Modelled from the spec: [base.PaginationToken] is not among the
    sources; per "Cursor: an ordered mapping of named resume-keys to
    scalar values ... plus a page-size limit" a token is its limit and its
    keys, [as_dict] is the mapping of both with the given replacements,
    and a token is built from such a mapping, with "a default limit" when
    none is given. *)
Record PaginationToken : Type := {
  limit : Z;
  keys : dict R
}.

Variable default_limit : Z.

Definition as_dict (self : PaginationToken) (kwargs : dict R) : dict R :=
  dict_update (("limit", VInt (limit self)) :: keys self) kwargs.

Definition PaginationToken_init (kwargs : dict R) : PaginationToken :=
  {| limit :=
       match dict_get "limit" kwargs with
       | Some (VInt n) => n
       | _ => default_limit
       end;
     keys := dict_del "limit" kwargs |}.

(** [ComponentToken.__init__(self, *, starting_package='', **kwargs)]. *)
Definition ComponentToken (kwargs : dict R) : PaginationToken :=
  let starting_package :=
    default (VStr "") (dict_get "starting_package" kwargs) in
  PaginationToken_init
    (("starting_package", starting_package)
     :: dict_del "starting_package" kwargs).

(** [ComponentToken.with_first(self, value)]. *)
Definition with_first (self : PaginationToken) (value : dict R)
  : result PaginationToken :=
  match dict_get "package_url" value with
  | Some first => Return (ComponentToken (as_dict self [("starting_package", first)]))
  | None => Raise (KeyError "package_url")
  end.

Variable self : RequestHandler R.

(** Modelled from the spec: [base.PaginatedCollectionHandler.get] is not
    among the sources; per "store query -> Cursor Codec re-encodes next
    token from the last row", "No token is issued when a page is short
    (fewer rows returned than the limit)" and "page size 2 ... yields
    [a,b] + token for b, then [c,d] + no token" it runs [COLLECTION_SQL]
    with the token's mapping, asking for one row more than the page size,
    and answers the rows of the page, with the token derived from the
    last of them when the store returned the row asked for in addition. *)
Definition get (token : PaginationToken)
  : M (list (dict R) * option PaginationToken) :=
  result <- postgres_execute self COLLECTION_SQL
              (as_dict token [("limit", VInt (limit token + 1))])
              "get-components" ;;
  let items := firstn (Z.to_nat (limit token)) (rows result) in
  if Z.of_nat (length (rows result)) <=? limit token
  then ret (items, None)
  else
    match last items with
    | Some value =>
        next <- lift (with_first token value) ;;
        ret (items, Some next)
    | None => ret (items, None)
    end.

(** A client that follows the tokens from [token] on, for at most [fuel]
    requests; [None] when it was still handed a token after the last. *)
Fixpoint follow (fuel : nat) (token : PaginationToken)
  : M (option (list (list (dict R)))) :=
  match fuel with
  | O => ret None
  | S fuel' =>
      page <- get token ;;
      match snd page with
      | None => ret (Some [fst page])
      | Some next =>
          later <- follow fuel' next ;;
          ret (option_map (cons (fst page)) later)
      end
  end.

End Listing.

Arguments PaginationToken R : clear implicits.

End pagination.

(** ** [imbi/models.py]: the project aggregate *)

Module models.

(** The dataclasses, one module each; a [datetime] is a number. *)

Module Namespace.
Record t : Type := {
  id : Z;
  created_at : Z;
  created_by : string;
  last_modified_at : option Z;
  last_modified_by : option string;
  name : string;
  slug : string;
  icon_class : string;
  maintained_by : option (list string);
  gitlab_group_name : string;
  sentry_team_slug : option string;
  pagerduty_policy : option string;
  aws_ssm_slug : option string
}.
End Namespace.

Module ProjectComponent.
Record t : Type := {
  name : string;
  package_url : string;
  status : string;
  version : string
}.
End ProjectComponent.

Module ProjectDependency.
Record t : Type := {
  project_id : Z;
  dependency_id : Z;
  created_at : Z;
  created_by : string
}.
End ProjectDependency.

Module ProjectFact.
Record t (V : Type) : Type := {
  id : Z;
  name : string;
  recorded_at : option Z;
  recorded_by : option string;
  value : V;
  fact_type : string;
  data_type : string;
  description : option string;
  ui_options : option (list string);
  score : Z;
  weight : Z
}.
Arguments id {V} _.
Arguments name {V} _.
Arguments recorded_at {V} _.
Arguments recorded_by {V} _.
Arguments value {V} _.
Arguments fact_type {V} _.
Arguments data_type {V} _.
Arguments description {V} _.
Arguments ui_options {V} _.
Arguments score {V} _.
Arguments weight {V} _.
End ProjectFact.

Module ProjectIdentifier.
Record t : Type := {
  integration_name : string;
  external_id : string;
  created_at : Z;
  created_by : string
}.
End ProjectIdentifier.

Module ProjectType.
Record t : Type := {
  id : Z;
  created_at : Z;
  created_by : string;
  last_modified_at : option Z;
  last_modified_by : option string;
  name : string;
  slug : string;
  plural_name : string;
  description : option string;
  icon_class : option string;
  environment_urls : bool;
  gitlab_project_prefix : option string
}.
End ProjectType.

Module ProjectLink.
Record t : Type := {
  link_type_id : Z;
  link_type : string;
  created_at : Z;
  created_by : string;
  last_modified_at : option Z;
  last_modified_by : option string;
  icon_class : option string;
  url : string
}.
End ProjectLink.

Module ProjectURL.
Record t : Type := {
  environment : string;
  created_at : Z;
  created_by : string;
  last_modified_at : option Z;
  last_modified_by : option string;
  icon_class : option string;
  url : string
}.
End ProjectURL.

(** The row selected by [Project.SQL]. *)
Module ProjectRow.
Record t : Type := {
  id : Z;
  created_at : Z;
  created_by : string;
  last_modified_at : option Z;
  last_modified_by : option string;
  namespace_id : Z;
  project_type_id : Z;
  name : string;
  slug : string;
  description : option string;
  environments : option (list string);
  archived : bool;
  gitlab_project_id : option Z;
  sentry_project_slug : option string;
  sonarqube_project_key : option string;
  pagerduty_service_id : option string;
  project_score : Z
}.
End ProjectRow.

Module Project.
Record t (V : Type) : Type := {
  id : Z;
  created_at : Z;
  created_by : string;
  last_modified_at : option Z;
  last_modified_by : option string;
  namespace : option Namespace.t;
  project_type : option ProjectType.t;
  name : string;
  slug : string;
  description : option string;
  environments : option (list string);
  archived : bool;
  gitlab_project_id : option Z;
  sentry_project_slug : option string;
  sonarqube_project_key : option string;
  pagerduty_service_id : option string;
  facts : gmap string V;
  identifiers : gmap string string;
  links : gmap string string;
  urls : gmap string string;
  project_score : Z;
  components : list (string * string);
  component_versions : list string;
  dependencies : list Z
}.
Arguments namespace {V} _.
Arguments project_type {V} _.
Arguments facts {V} _.
Arguments components {V} _.
Arguments component_versions {V} _.
Arguments dependencies {V} _.
End Project.

(** What the connection answers to each statement of this module: an
    error of the database, or the row (if any) or rows selected. *)
Record Connection (V : Type) : Type := {
  execute_Project_SQL : Z -> pg_error + option ProjectRow.t;
  execute_Namespace_SQL : Z -> pg_error + option Namespace.t;
  execute_ProjectType_SQL : Z -> pg_error + option ProjectType.t;
  execute_ProjectFact_COLLECTION_SQL : Z -> pg_error + list (ProjectFact.t V);
  execute_ProjectLink_COLLECTION_SQL : Z -> pg_error + list ProjectLink.t;
  execute_ProjectURL_COLLECTION_SQL : Z -> pg_error + list ProjectURL.t;
  execute_ProjectIdentifier_COLLECTION_SQL :
    Z -> pg_error + list ProjectIdentifier.t;
  execute_ProjectComponent_COLLECTION_SQL :
    Z -> pg_error + list ProjectComponent.t;
  execute_ProjectDependency_COLLECTION_SQL :
    Z -> pg_error + list ProjectDependency.t
}.

Arguments execute_Project_SQL {V} _ _.
Arguments execute_Namespace_SQL {V} _ _.
Arguments execute_ProjectType_SQL {V} _ _.
Arguments execute_ProjectFact_COLLECTION_SQL {V} _ _.
Arguments execute_ProjectLink_COLLECTION_SQL {V} _ _.
Arguments execute_ProjectURL_COLLECTION_SQL {V} _ _.
Arguments execute_ProjectIdentifier_COLLECTION_SQL {V} _ _.
Arguments execute_ProjectComponent_COLLECTION_SQL {V} _ _.
Arguments execute_ProjectDependency_COLLECTION_SQL {V} _ _.

Definition str (z : Z) : string := NilZero.string_of_int (Z.to_int z).

Section Loaders.

Context {V : Type}.

(** [common.coerce_project_fact(data_type, value)], which is not among
    the sources: the coerced value, or [None] for a [ValueError]. *)
Variable coerce_project_fact : string -> V -> option V.

Variable application : Connection V.

(** [ProjectFact.__post_init__]. *)
Definition ProjectFact_post_init (f : ProjectFact.t V) : ProjectFact.t V :=
  match coerce_project_fact (ProjectFact.data_type f) (ProjectFact.value f) with
  | None => f
  | Some value =>
      {| ProjectFact.id := ProjectFact.id f;
         ProjectFact.name := ProjectFact.name f;
         ProjectFact.recorded_at := ProjectFact.recorded_at f;
         ProjectFact.recorded_by := ProjectFact.recorded_by f;
         ProjectFact.value := value;
         ProjectFact.fact_type := ProjectFact.fact_type f;
         ProjectFact.data_type := ProjectFact.data_type f;
         ProjectFact.description := ProjectFact.description f;
         ProjectFact.ui_options := ProjectFact.ui_options f;
         ProjectFact.score := ProjectFact.score f;
         ProjectFact.weight := ProjectFact.weight f |}
  end.

(** [_load]: the model built from the row, [None] without a row; its
    error callback raises [DatabaseError] ([model] being a class, the
    name in the message is that of its metaclass). *)
Definition _load {A} (executed : pg_error + option A) : result (option A) :=
  match executed with
  | inl exc => Raise (DatabaseError "Error loading type" None (Some exc))
  | inr found => Return found
  end.

(** [_load_collection]: the list of the models built from the rows. *)
Definition _load_collection {A} (model : A -> A) (obj_id : Z)
    (executed : pg_error + list A) : result (list A) :=
  match executed with
  | inl exc =>
      Raise (DatabaseError
               ("Error loading type collection for " ++ str obj_id)
               None (Some exc))
  | inr found => Return (map model found)
  end.

Definition namespace (namespace_id : Z) : result (option Namespace.t) :=
  _load (execute_Namespace_SQL application namespace_id).

Definition project_type (project_type_id : Z)
  : result (option ProjectType.t) :=
  _load (execute_ProjectType_SQL application project_type_id).

Definition project_facts (project_id : Z) : result (list (ProjectFact.t V)) :=
  _load_collection ProjectFact_post_init project_id
    (execute_ProjectFact_COLLECTION_SQL application project_id).

Definition project_links (project_id : Z) : result (list ProjectLink.t) :=
  _load_collection (fun x => x) project_id
    (execute_ProjectLink_COLLECTION_SQL application project_id).

Definition project_urls (project_id : Z) : result (list ProjectURL.t) :=
  _load_collection (fun x => x) project_id
    (execute_ProjectURL_COLLECTION_SQL application project_id).

Definition project_identifiers (project_id : Z)
  : result (list ProjectIdentifier.t) :=
  _load_collection (fun x => x) project_id
    (execute_ProjectIdentifier_COLLECTION_SQL application project_id).

Definition project_components (project_id : Z)
  : result (list ProjectComponent.t) :=
  _load_collection (fun x => x) project_id
    (execute_ProjectComponent_COLLECTION_SQL application project_id).

Definition project_dependencies (project_id : Z)
  : result (list ProjectDependency.t) :=
  _load_collection (fun x => x) project_id
    (execute_ProjectDependency_COLLECTION_SQL application project_id).

Definition failure {A} (r : result A) : option exn :=
  match r with
  | Raise e => Some e
  | Return _ => None
  end.

(** The exception of the awaitable that fails first, the awaitables
    finishing in the order [finished] (positions in the argument list);
    one that [finished] leaves out finishes after those it names, in the
    order of the arguments. *)
Fixpoint first_failure (finished : list nat) (failures : list (option exn))
  : option exn :=
  match finished with
  | [] => head (omap (fun x => x) failures)
  | i :: later =>
      match nth i failures None with
      | Some e => Some e
      | None => first_failure later failures
      end
  end.

(** [await asyncio.gather(a0, ..., a7)]: the results in the order of the
    arguments, or the first exception any of them raises. *)
Definition gather {A0 A1 A2 A3 A4 A5 A6 A7} (finished : list nat)
    (a0 : result A0) (a1 : result A1) (a2 : result A2) (a3 : result A3)
    (a4 : result A4) (a5 : result A5) (a6 : result A6) (a7 : result A7)
  : result (A0 * A1 * A2 * A3 * A4 * A5 * A6 * A7) :=
  match first_failure finished
          [failure a0; failure a1; failure a2; failure a3;
           failure a4; failure a5; failure a6; failure a7] with
  | Some e => Raise e
  | None =>
      match a0, a1, a2, a3, a4, a5, a6, a7 with
      | Return r0, Return r1, Return r2, Return r3,
        Return r4, Return r5, Return r6, Return r7 =>
          Return (r0, r1, r2, r3, r4, r5, r6, r7)
      | Raise e, _, _, _, _, _, _, _
      | _, Raise e, _, _, _, _, _, _
      | _, _, Raise e, _, _, _, _, _
      | _, _, _, Raise e, _, _, _, _
      | _, _, _, _, Raise e, _, _, _
      | _, _, _, _, _, Raise e, _, _
      | _, _, _, _, _, _, Raise e, _
      | _, _, _, _, _, _, _, Raise e => Raise e
      end
  end.

(** [{key(x): item(x) for x in xs}]: a later entry replaces an earlier
    one with the same key. *)
Definition comprehension {A B} (key : A -> string) (item : A -> B)
    (xs : list A) : gmap string B :=
  fold_left (fun m x => <[key x := item x]> m) xs ∅.

(** [project(project_id, application)]; the sub-loads awaited together
    finish in the order [finished]. *)
Definition project (finished : list nat) (project_id : Z)
  : result (option (Project.t V)) :=
  match execute_Project_SQL application project_id with
  | inl exc =>
      Raise (DatabaseError ("Error loading Project " ++ str project_id)
               None (Some exc))
  | inr None => Return None
  | inr (Some values) =>
      match gather finished
              (namespace (ProjectRow.namespace_id values))
              (project_type (ProjectRow.project_type_id values))
              (project_facts project_id)
              (project_links project_id)
              (project_urls project_id)
              (project_identifiers project_id)
              (project_components project_id)
              (project_dependencies project_id) with
      | Raise e => Raise e
      | Return (r0, r1, r2, r3, r4, r5, r6, r7) =>
          Return (Some
            {| Project.id := ProjectRow.id values;
               Project.created_at := ProjectRow.created_at values;
               Project.created_by := ProjectRow.created_by values;
               Project.last_modified_at := ProjectRow.last_modified_at values;
               Project.last_modified_by := ProjectRow.last_modified_by values;
               Project.namespace := r0;
               Project.project_type := r1;
               Project.name := ProjectRow.name values;
               Project.slug := ProjectRow.slug values;
               Project.description := ProjectRow.description values;
               Project.environments := ProjectRow.environments values;
               Project.archived := ProjectRow.archived values;
               Project.gitlab_project_id := ProjectRow.gitlab_project_id values;
               Project.sentry_project_slug :=
                 ProjectRow.sentry_project_slug values;
               Project.sonarqube_project_key :=
                 ProjectRow.sonarqube_project_key values;
               Project.pagerduty_service_id :=
                 ProjectRow.pagerduty_service_id values;
               Project.facts :=
                 comprehension ProjectFact.name ProjectFact.value r2;
               Project.identifiers :=
                 comprehension ProjectIdentifier.integration_name
                   ProjectIdentifier.external_id r5;
               Project.links :=
                 comprehension ProjectLink.link_type ProjectLink.url r3;
               Project.urls :=
                 comprehension ProjectURL.environment ProjectURL.url r4;
               Project.project_score := ProjectRow.project_score values;
               Project.components :=
                 map (fun c => (ProjectComponent.package_url c,
                                ProjectComponent.version c)) r6;
               Project.component_versions :=
                 map (fun c => ProjectComponent.package_url c ++ "@" ++
                               ProjectComponent.version c) r6;
               Project.dependencies :=
                 map ProjectDependency.dependency_id r7 |})
      end
  end.

End Loaders.

End models.

(** ** [imbi/endpoints/components.py]: the record handler's validity check *)

Module record_handler.

Import components handlers.

(** [CollectionRequestHandler.FIELDS]. *)
Definition FIELDS : list string :=
  ["package_url"; "name"; "status"; "home_page"; "icon_class";
   "active_version"].

Section Validity.

Context {R : Type} {VR : VersionRange R}.

(** [RecordRequestHandler._check_validity(instance)]; its [except]
    names [pydantic.ValidationError] only. *)
Definition _check_validity (instance : dict R) : result bool :=
  match model_validate instance with
  | Raise e => Raise e
  | Return (inl all_errors) =>
      Raise (BadRequest "Invalid Component generated by update"
               (first_msg all_errors) all_errors)
  | Return (inr _) => Return true
  end.

End Validity.

End record_handler.

(** ** The components of a project *)

Module project_components_handler.

Import components handlers pagination.

(** [int(x)]: the integer, a [ValueError], or a [TypeError]. *)
Inductive int_outcome : Type :=
| IntOk (z : Z)
| IntValueError
| IntTypeError.

(** How the construction of a [ProjectComponentsToken] ends: the token,
    the [BadRequest] about the project id, or the [TypeError] that Python
    raises for a missing keyword argument or for [int] of something that
    is neither a number nor a string. *)
Inductive token_outcome (R : Type) : Type :=
| TokenOk (t : PaginationToken R)
| TokenBadRequest (project_id : value R)
| TokenTypeError.

Arguments TokenOk {R} t.
Arguments TokenBadRequest {R} project_id.
Arguments TokenTypeError {R}.

(** The project component statuses that the docstring of
    [_postprocess_item] names. *)
Inductive ProjectComponentStatus : Type := UNSCORED | UP_TO_DATE | OUTDATED.

Definition project_status_value (s : ProjectComponentStatus) : string :=
  match s with
  | UNSCORED => "Unscored"
  | UP_TO_DATE => "Up-to-date"
  | OUTDATED => "Outdated"
  end.

(** One row of the join of [v1.project_components], [v1.component_versions]
    and [v1.components]. *)
Definition joined_row : Type :=
  (ProjectComponentRow * ComponentVersionRow * ComponentRow)%type.

Definition row_url (j : joined_row) : string := c_package_url (snd j).

(** [ORDER BY c.package_url ASC] on the joined rows; the statement
    leaves the order of rows with the same [package_url] open, here they
    stay in the order of the join. *)
Fixpoint place_row (j : joined_row) (sorted : list joined_row)
  : list joined_row :=
  match sorted with
  | [] => [j]
  | x :: sorted' =>
      if String.ltb (row_url x) (row_url j)
      then x :: place_row j sorted'
      else j :: sorted
  end.

Fixpoint order_rows (js : list joined_row) : list joined_row :=
  match js with
  | [] => []
  | j :: js' => place_row j (order_rows js')
  end.

Section ProjectComponents.

Context {R : Type} {VR : VersionRange R}.

(** [int] on a string, Python's own parsing of integer literals: the
    number, or [None] for a [ValueError].  [None], a list, a dictionary
    and a version range are no numbers: [int] raises [TypeError] on
    them. *)
Variable int_of_str : string -> option Z.

Definition py_int (v : value R) : int_outcome :=
  match v with
  | VInt z => IntOk z
  | VBool b => IntOk (bool_as_int b)
  | VStr s =>
      match int_of_str s with
      | Some z => IntOk z
      | None => IntValueError
      end
  | _ => IntTypeError
  end.

Variable default_limit : Z.

(** [ProjectComponentsToken.__init__(self, *, starting_package='',
    project_id, **kwargs)]. *)
Definition ProjectComponentsToken (kwargs : dict R) : token_outcome R :=
  let starting_package :=
    default (VStr "") (dict_get "starting_package" kwargs) in
  match dict_get "project_id" kwargs with
  | None => TokenTypeError
  | Some project_id =>
      match py_int project_id with
      | IntOk z =>
          TokenOk
            (PaginationToken_init default_limit
               (("starting_package", starting_package)
                :: ("project_id", VInt z)
                :: dict_del "project_id"
                     (dict_del "starting_package" kwargs)))
      | IntValueError => TokenBadRequest project_id
      | IntTypeError => TokenTypeError
      end
  end.

(** [ProjectComponentsToken.with_first(self, value)]; [None] stands for
    the [KeyError] of an item without [package_url]. *)
Definition with_first (self : PaginationToken R) (value : dict R)
  : option (token_outcome R) :=
  match dict_get "package_url" value with
  | Some first =>
      Some (ProjectComponentsToken
              (as_dict self [("starting_package", first)]))
  | None => None
  end.

(** The join of [COLLECTION_SQL]: [v1.project_components AS p JOIN
    v1.component_versions AS v ON v.id = p.version_id JOIN v1.components
    AS c ON c.package_url = v.package_url]. *)
Definition join (db : Database) : list joined_row :=
  flat_map
    (fun p =>
       flat_map
         (fun v =>
            map (fun c => (p, v, c))
              (List.filter
                 (fun c => String.eqb (c_package_url c) (v_package_url v))
                 (store.components db)))
         (List.filter (fun v => Z.eqb (v_id v) (p_version_id p))
            (component_versions db)))
    (project_components db).

(** The columns of one row of the result. *)
Definition project_component_record (j : joined_row) : dict R :=
  let '(p, v, c) := j in
  [ ("package_url", VStr (c_package_url c));
    ("name", VStr (c_name c));
    ("icon_class", VStr (c_icon_class c));
    ("status", VStr (c_status c));
    ("active_version", opt_text (c_active_version c));
    ("version", VStr (v_version v)) ].

Definition page_rows (start : value R) (project_id : Z) (db : Database)
  : list joined_row :=
  order_rows
    (List.filter
       (fun j => text_after (row_url j) start
                 && Z.eqb (p_project_id (fst (fst j))) project_id)
       (join db)).

(** [ProjectComponentsRequestHandler.COLLECTION_SQL]: [SELECT
    c.package_url, c."name", c.icon_class, c.status, c.active_version,
    v.version FROM ... WHERE c.package_url > %(starting_package)s AND
    p.project_id = %(project_id)s ORDER BY c.package_url ASC].  The
    project id of a token is an [int]. *)
Definition COLLECTION_SQL (params : dict R) (db : Database)
  : sql_outcome (QueryResult R) :=
  match dict_get "starting_package" params, dict_get "project_id" params with
  | None, _ => SqlMissingParameter "starting_package"
  | _, None => SqlMissingParameter "project_id"
  | Some start, Some (VInt project_id) =>
      let page := page_rows start project_id db in
      SqlOk {| row_count := length page;
               rows := map project_component_record page |} db
  | Some _, Some _ => SqlError datatype_mismatch
  end.

(** What [_postprocess_item] reads of the item once
    [scoring.ProjectComponentRow] has validated it; that model, the
    versions it holds and [self.reverse_url] are parameters. *)
Record ProjectComponentRow_t (Version : Type) : Type := {
  pc_status : value R;
  pc_active_version : option R;
  pc_version : Version
}.

Arguments pc_status {Version} _.
Arguments pc_active_version {Version} _.
Arguments pc_version {Version} _.

Variable Version : Type.

Variable ProjectComponentRow_model_validate :
  dict R -> list ErrorDetails + ProjectComponentRow_t Version.

(** [version in active_version]. *)
Variable range_contains : R -> Version -> bool.

Variable reverse_url : string -> value R -> value R.

(** [ProjectComponentsRequestHandler._postprocess_item(item)]; the item,
    which the method changes in place, is returned. *)
Definition _postprocess_item (item : dict R) : result (dict R) :=
  match dict_get "package_url" item with
  | None => Raise (KeyError "package_url")
  | Some url =>
      let item := dict_set "link" (reverse_url "component" url) item in
      match ProjectComponentRow_model_validate item with
      | inl errs => Raise (PydanticValidationError errs)
      | inr project_component =>
          match pc_active_version project_component with
          | None =>
              Return (dict_set "status"
                        (VStr (project_status_value UNSCORED)) item)
          | Some active_version =>
              if py_eq (pc_status project_component)
                   (VStr (status_value ACTIVE))
              then
                if range_contains active_version
                     (pc_version project_component)
                then Return (dict_set "status"
                               (VStr (project_status_value UP_TO_DATE)) item)
                else Return (dict_set "status"
                               (VStr (project_status_value OUTDATED)) item)
              else Return item
          end
      end
  end.

End ProjectComponents.

Arguments ProjectComponentRow_t R Version : clear implicits.
Arguments pc_status {R Version} _.
Arguments pc_active_version {R Version} _.
Arguments pc_version {R Version} _.

End project_components_handler.
(** ** Concrete collaborators

    Instances of the parameters, on which the statements below are
    exercised. *)

Module concrete.

Import components handlers.

(** Ranges as their specifier: any non-empty text is one, a range
    validates as itself, anything else is a [TypeError]; a range dumps as
    itself and equals only a range with the same specifier. *)
#[export] Instance specifier_ranges : VersionRange string := {|
  range_validate_str s :=
    if String.eqb s "" then inl "Invalid version range" else inr s;
  range_validate_other v :=
    match v with
    | VRange r => Return (inr r)
    | _ => Raise TypeError
    end;
  range_dump r := VRange r;
  range_eq r v :=
    match v with
    | VRange r' => String.eqb r r'
    | _ => false
    end;
  range_sql r := r
|}.

Abbreviation pyvalue := (value string).
Abbreviation pydict := (dict string).

(** One operation of a patch document whose pointer names a member of
    the document. *)
Inductive op_kind : Type := OpAdd | OpRemove | OpReplace | OpMove | OpCopy | OpTest.

Record operation : Type := {
  op : op_kind;
  path : string;
  op_value : option pyvalue;
  op_from : option string
}.

Definition kind_of_string (s : string) : option op_kind :=
  if String.eqb s "add" then Some OpAdd
  else if String.eqb s "remove" then Some OpRemove
  else if String.eqb s "replace" then Some OpReplace
  else if String.eqb s "move" then Some OpMove
  else if String.eqb s "copy" then Some OpCopy
  else if String.eqb s "test" then Some OpTest
  else None.

(** The member a pointer [/name] refers to; [None] for a pointer that
    does not start with a slash. *)
Definition member (pointer : string) : option string :=
  match pointer with
  | String "/"%char rest => Some rest
  | _ => None
  end.

Definition parse_operation (v : pyvalue) : jsonpatch_error + operation :=
  match v with
  | VDict entries =>
      match dict_get "op" entries with
      | Some (VStr o) =>
          match kind_of_string o with
          | Some k =>
              match dict_get "path" entries with
              | Some (VStr p) =>
                  match member p with
                  | Some m =>
                      inr {| op := k; path := m;
                             op_value := dict_get "value" entries;
                             op_from :=
                               match dict_get "from" entries with
                               | Some (VStr f) => member f
                               | _ => None
                               end |}
                  | None => inl JsonPointerException
                  end
              | _ => inl InvalidJsonPatch
              end
          | None => inl InvalidJsonPatch
          end
      | _ => inl InvalidJsonPatch
      end
  | _ => inl InvalidJsonPatch
  end.

Fixpoint parse_operations (vs : list pyvalue)
  : jsonpatch_error + list operation :=
  match vs with
  | [] => inr []
  | v :: vs' =>
      match parse_operation v with
      | inl e => inl e
      | inr o =>
          match parse_operations vs' with
          | inl e => inl e
          | inr os => inr (o :: os)
          end
      end
  end.

Definition parse_patch (body : pyvalue) : jsonpatch_error + list operation :=
  match body with
  | VList vs => parse_operations vs
  | _ => inl InvalidJsonPatch
  end.

Definition apply_operation (o : operation) (doc : pydict)
  : jsonpatch_error + pydict :=
  match op o with
  | OpAdd =>
      match op_value o with
      | Some v => inr (dict_set (path o) v doc)
      | None => inl InvalidJsonPatch
      end
  | OpRemove =>
      match dict_get (path o) doc with
      | Some _ => inr (dict_del (path o) doc)
      | None => inl JsonPatchConflict
      end
  | OpReplace =>
      match op_value o with
      | Some v =>
          match dict_get (path o) doc with
          | Some _ => inr (dict_set (path o) v doc)
          | None => inl JsonPatchConflict
          end
      | None => inl InvalidJsonPatch
      end
  | OpMove =>
      match op_from o with
      | Some f =>
          match dict_get f doc with
          | Some v =>
              if String.eqb f (path o) then inr doc
              else inr (dict_set (path o) v (dict_del f doc))
          | None => inl JsonPatchConflict
          end
      | None => inl InvalidJsonPatch
      end
  | OpCopy =>
      match op_from o with
      | Some f =>
          match dict_get f doc with
          | Some v => inr (dict_set (path o) v doc)
          | None => inl JsonPatchConflict
          end
      | None => inl InvalidJsonPatch
      end
  | OpTest =>
      match dict_get (path o) doc with
      | Some v =>
          match op_value o with
          | Some expected =>
              if py_eq v expected then inr doc else inl JsonPatchTestFailed
          | None => inl InvalidJsonPatch
          end
      | None => inl JsonPatchTestFailed
      end
  end.

Fixpoint apply_operations (os : list operation) (doc : pydict)
  : jsonpatch_error + pydict :=
  match os with
  | [] => inr doc
  | o :: os' =>
      match apply_operation o doc with
      | inl e => inl e
      | inr doc' => apply_operations os' doc'
      end
  end.

(** [jsonpatch] on documents whose members are addressed directly. *)
#[export] Instance member_patches : JsonPatchLibrary string := {|
  patch_t := list operation;
  JsonPatch := parse_patch;
  apply := apply_operations
|}.

Definition has_project (db : Database) (project_id : Z) : bool :=
  existsb (Z.eqb project_id) (projects db).

Definition record_score (project_id : Z) (db : Database) : Database :=
  {| store.components := store.components db;
     component_versions := component_versions db;
     project_components := project_components db;
     project_facts :=
       {| f_project_id := project_id; f_fact_type_id := 1;
          f_value := Some "scored"; f_recorded_by := "system" |}
       :: List.filter (fun f => negb (Z.eqb (f_project_id f) project_id))
            (project_facts db);
     projects := projects db;
     current_timestamp := current_timestamp db |}.

(** A scoring whose upsert violates the foreign key to [v1.projects]
    when the project is gone, and fails as [faults] says for the projects
    it names. *)
Definition upsert_scoring (faults : Z -> option pg_error) : Scoring := {|
  score_statements project_id db :=
    match faults project_id with
    | Some e => inl ("update-component-score", e)
    | None =>
        if has_project db project_id then inr (record_score project_id db)
        else inl ("update-component-score", ForeignKeyViolation)
    end
|}.

Definition no_faults : Z -> option pg_error := fun _ => None.

Definition handler (configured : bool) : RequestHandler string :=
  {| settings :=
       {| settings_components :=
            if configured then Some [("project_fact_type_id", VInt 1)]
            else None |};
     username := "admin";
     on_postgres_error :=
       fun _ e => DatabaseError "Database Error" None (Some e) |}.

Definition component (url name status : string) (version : option string)
  : ComponentRow :=
  {| c_package_url := url; c_name := name; c_status := status;
     c_home_page := None; c_icon_class := "fas fa-save";
     c_active_version := version; c_created_at := 1;
     c_created_by := "admin"; c_last_modified_at := None;
     c_last_modified_by := None |}.

Definition catalog : Database :=
  {| store.components :=
       [ component "pkg:generic/foo" "foo" "Active" (Some ">=2.0");
         component "pkg:generic/bar" "bar" "Deprecated" None ];
     component_versions :=
       [ {| v_id := 1; v_package_url := "pkg:generic/foo"; v_version := "2.1" |};
         {| v_id := 2; v_package_url := "pkg:generic/foo"; v_version := "3.0" |} ];
     project_components :=
       [ {| p_project_id := 10; p_package_url := "pkg:generic/foo";
            p_version_id := 1 |};
         {| p_project_id := 10; p_package_url := "pkg:generic/foo";
            p_version_id := 2 |};
         {| p_project_id := 11; p_package_url := "pkg:generic/foo";
            p_version_id := 2 |};
         {| p_project_id := 12; p_package_url := "pkg:generic/foo";
            p_version_id := 1 |} ];
     project_facts := [];
     projects := [10; 12];
     current_timestamp := 100 |}.

Definition quiet (db : Database) : World :=
  {| database := db; pending := []; trace := [] |}.

Definition operation_doc (o p : string) (v : pyvalue) : pyvalue :=
  VDict [("op", VStr o); ("path", VStr p); ("value", v)].

Definition operation_at (o p : string) : pyvalue :=
  VDict [("op", VStr o); ("path", VStr p)].


Definition deprecate : pyvalue :=
  VList [operation_doc "replace" "/status" (VStr "Deprecated")].



Definition failed_test : pyvalue :=
  VList [operation_doc "test" "/name" (VStr "nope")].

Definition drop_name : pyvalue := VList [operation_at "remove" "/name"].

Definition bogus_status : pyvalue :=
  VList [operation_doc "replace" "/status" (VStr "Bogus")].

Definition scored : Scoring := upsert_scoring no_faults.






(** Decimal literals, with a sign or without. *)
Definition decimal (s : string) : option Z :=
  option_map Z.of_int (NilEmpty.int_of_string s).


End concrete.

(** * Properties *)

(** ** Running a handler *)

Module runs.

Import components handlers.
Local Open Scope handler_scope.

(** The world once a statement named [metric_name] has been sent: the
    next concurrent change has landed and the statement is on record. *)
Definition sent (metric_name : string) (w : World) : World :=
  {| database :=
       match pending w with
       | [] => database w
       | change :: _ => change (database w)
       end;
     pending := tail (pending w);
     trace := trace w ++ [Executed metric_name] |}.

Definition with_database (db : Database) (w : World) : World :=
  {| database := db; pending := pending w; trace := trace w |}.

Lemma bind_return {A B} (m : M A) (k : A -> M B) w a w1 :
  m w = (Return a, w1) -> bind m k w = k a w1.
Proof. unfold bind. intros ->. reflexivity. Qed.

Lemma bind_raise {A B} (m : M A) (k : A -> M B) w e w1 :
  m w = (Raise e, w1) -> bind m k w = (Raise e, w1).
Proof. unfold bind. intros ->. reflexivity. Qed.


Section Runs.

Context {R : Type} {VR : VersionRange R} {JP : JsonPatchLibrary R}
        {SC : Scoring}.

Variable self : RequestHandler R.

(** What [postgres_execute] does, in one step. *)
Lemma postgres_execute_sent {A} (sql : dict R -> Database -> sql_outcome A)
    params metric_name w :
  postgres_execute self sql params metric_name w =
  match sql params (database (sent metric_name w)) with
  | SqlOk a db' => (Return a, with_database db' (sent metric_name w))
  | SqlMissingParameter k => (Raise (KeyError k), sent metric_name w)
  | SqlError e =>
      (Raise (on_postgres_error self metric_name e), sent metric_name w)
  end.
Proof.
  unfold postgres_execute, bind, suspend, emit, get_database, set_database,
    ret, raise, sent, with_database.
  destruct w as [db pend tr]; destruct pend as [|f fs]; simpl;
    destruct (sql params _); reflexivity.
Qed.

Lemma GET_SQL_keeps params db (q : QueryResult R) db' :
  GET_SQL params db = SqlOk q db' -> db' = db.
Proof.
  unfold GET_SQL. destruct (dict_get "package_url" params); [|discriminate].
  intros H. injection H as _ H. symmetry. exact H.
Qed.

Lemma with_database_same w : with_database (database w) w = w.
Proof. destruct w; reflexivity. Qed.

(** The snapshot that [patch] reads for [package_url] when it starts in
    [w]: the validated row, when there is one. *)
Definition snapshot (url : string) (w : World)
  : option (Component R) :=
  match GET_SQL [("package_url", VStr url)]
          (database (sent "get-component" w)) with
  | SqlOk result _ =>
      if truthy result then
        match model_validate (default [] (row result)) with
        | Return (inr original) => Some original
        | _ => None
        end
      else None
  | _ => None
  end.

(** The run of [patch] up to the comparison of the two dictionaries. *)
Lemma patch_after_apply url body w original p updated_dict :
  snapshot url w = Some original ->
  JsonPatch body = inr p ->
  apply p (model_dump original) = inr updated_dict ->
  patch self url body w =
  match all_equal (model_dump original) updated_dict
          (dict_keys updated_dict) with
  | Raise e => (Raise e, sent "get-component" w)
  | Return true => (Return NotModified, sent "get-component" w)
  | Return false =>
      match model_validate updated_dict with
      | Raise e => (Raise e, sent "get-component" w)
      | Return (inl all_errors) =>
          (Raise (BadRequest "Invalid Component generated by update"
                    (first_msg all_errors) all_errors),
           sent "get-component" w)
      | Return (inr updated) =>
          (affected <- postgres_execute self PATCH_SQL
                         (dict_update updated_dict
                            [ ("current_package_url",
                                opt_str_value (package_url original));
                              ("username", VStr (username self)) ])
                         "patch-component" ;;
           if Nat.eqb affected 0
           then raise (DatabaseError "No rows were returned from PATCH_SQL"
                         (Some "failed to update record") None)
           else
             (if _project_update_required self original updated
              then _update_affected_projects self
                     (opt_str_value (package_url updated))
              else ret tt) ;;
             _get self [("package_url",
                         opt_str_value (package_url updated))])
            (sent "get-component" w)
      end
  end.
Proof.
  unfold snapshot. intros Hs Hp Ha.
  unfold patch. unfold bind at 1. rewrite postgres_execute_sent.
  destruct (GET_SQL _ _) as [result db'| |] eqn:Hget; try discriminate.
  apply GET_SQL_keeps in Hget as ->. rewrite with_database_same.
  destruct (truthy result); [|discriminate]. simpl.
  destruct (model_validate (default [] (row result))) as [[|o]|];
    try discriminate.
  injection Hs as ->. rewrite Hp, Ha.
  unfold bind at 1, lift.
  destruct (all_equal _ _ _) as [[|]|e]; try reflexivity.
  destruct (model_validate updated_dict) as [[|]|]; reflexivity.
Qed.

(** A name of the patched dictionary survives the two entries that
    [patch] adds to it. *)
Lemma dict_get_set_same (k : string) (v : value R) d :
  dict_get k (dict_set k v d) = Some v.
Proof.
  induction d as [|[k' v'] d IH]; simpl.
  - rewrite String.eqb_refl. reflexivity.
  - destruct (String.eqb k k') eqn:E; simpl.
    + rewrite String.eqb_refl. reflexivity.
    + rewrite E. exact IH.
Qed.

Lemma dict_get_set_other (k k' : string) (v : value R) d :
  k <> k' -> dict_get k (dict_set k' v d) = dict_get k d.
Proof.
  intros Hne. induction d as [|[k0 v0] d IH]; simpl.
  - destruct (String.eqb_spec k k'); [contradiction | reflexivity].
  - destruct (String.eqb_spec k' k0) as [->|Hk0]; simpl.
    + destruct (String.eqb_spec k k0); [contradiction | reflexivity].
    + destruct (String.eqb k k0); [reflexivity | exact IH].
Qed.

Definition write_parameters (original : Component R) (updated_dict : dict R)
  : dict R :=
  dict_update updated_dict
    [ ("current_package_url", opt_str_value (package_url original));
      ("username", VStr (username self)) ].

Lemma write_parameters_field original d k :
  k <> "current_package_url" -> k <> "username" ->
  dict_get k (write_parameters original d) = dict_get k d.
Proof.
  intros H1 H2. unfold write_parameters, dict_update. simpl.
  rewrite dict_get_set_other by exact H2.
  rewrite dict_get_set_other by exact H1. reflexivity.
Qed.



(** No concurrent change is pending once none was. *)
Lemma sent_quiet metric_name w : pending w = [] -> pending (sent metric_name w) = [].
Proof. unfold sent. simpl. intros ->. reflexivity. Qed.


Lemma score_update_run project_id on_error w :
  update_component_score_for_project project_id on_error w =
  let w1 :=
    {| database :=
         match pending w with
         | [] => database w
         | change :: _ => change (database w)
         end;
       pending := tail (pending w);
       trace := trace w ++ [ScoreUpdate project_id] |} in
  match score_statements project_id (database w1) with
  | inr db' => (Return tt, with_database db' w1)
  | inl (metric_name, e) => (Raise (on_error metric_name e), w1)
  end.
Proof.
  unfold update_component_score_for_project, bind, suspend, emit,
    get_database, set_database, raise, with_database.
  destruct w as [db pend tr]; destruct pend as [|f fs]; simpl;
    destruct (score_statements project_id _) as [[m e]|db']; reflexivity.
Qed.



End Runs.

End runs.

(** ** The cascade coordinator *)

Module cascade_properties.

Import components handlers runs concrete.
Local Open Scope handler_scope.
Local Open Scope list_scope.

(** The world once the score update of a project has been attempted, and
    once the warning about it has been logged. *)
Definition attempted (project_id : Z) (w : World) : World :=
  {| database :=
       match pending w with
       | [] => database w
       | change :: _ => change (database w)
       end;
     pending := tail (pending w);
     trace := trace w ++ [ScoreUpdate project_id] |}.

Definition warned (project_id : Z) (w : World) : World :=
  {| database := database w; pending := pending w;
     trace := trace w ++ [LogWarning project_id] |}.

(** The projects whose score update the events record, in order. *)
Definition score_updates (events : list Event) : list Z :=
  omap (fun e => if e is ScoreUpdate p then Some p else None) events.

Section Cascade.

Context {R : Type} {VR : VersionRange R} {JP : JsonPatchLibrary R}
        {SC : Scoring}.

Variable self : RequestHandler R.

Lemma fan_out_step p rest w :
  fan_out self (p :: rest) w =
  match score_statements p (database (attempted p w)) with
  | inr db' => fan_out self rest (with_database db' (attempted p w))
  | inl (m, e) =>
      if is_foreign_key_violation (cascade_on_postgres_error self m e)
      then fan_out self rest (warned p (attempted p w))
      else (Raise (cascade_on_postgres_error self m e), attempted p w)
  end.
Proof.
  simpl. unfold bind at 1, try_except. rewrite score_update_run. simpl.
  fold (attempted p w).
  destruct (score_statements p _) as [[m e]|db']; [|reflexivity].
  destruct (is_foreign_key_violation _); reflexivity.
Qed.

(** The events of a fan-out are the score updates of a prefix of the
    projects, each at most followed by its warning. *)
Lemma fan_out_trace project_ids : forall w r w',
  fan_out self project_ids w = (r, w') ->
  exists events done later,
    trace w' = trace w ++ events /\
    project_ids = done ++ later /\
    score_updates events = done /\
    (r = Return tt -> later = []).
Proof.
  induction project_ids as [|p rest IH]; intros w r w'.
  - simpl. unfold ret. intros H. injection H as <- <-.
    exists [], [], []. rewrite app_nil_r. repeat split.
  - rewrite fan_out_step.
    destruct (score_statements p _) as [[m e]|db'].
    + destruct (is_foreign_key_violation _).
      * intros H. apply IH in H as (evs & done & later & Ht & Hi & Hs & Hr).
        exists (ScoreUpdate p :: LogWarning p :: evs), (p :: done), later.
        simpl in Ht. rewrite Ht, <- !app_assoc. simpl.
        repeat split; [rewrite Hi; reflexivity | | exact Hr].
        unfold score_updates in *. simpl. rewrite Hs. reflexivity.
      * intros H. injection H as <- <-.
        exists [ScoreUpdate p], [p], rest. simpl.
        repeat split. discriminate.
    + intros H. apply IH in H as (evs & done & later & Ht & Hi & Hs & Hr).
      exists (ScoreUpdate p :: evs), (p :: done), later.
      simpl in Ht. rewrite Ht, <- !app_assoc. simpl.
      repeat split; [rewrite Hi; reflexivity | | exact Hr].
      unfold score_updates in *. simpl. rewrite Hs. reflexivity.
Qed.

(** A fan-out whose only failures are foreign key violations returns
    normally. *)
Lemma fan_out_returns project_ids :
  (forall q db m e, score_statements q db = inl (m, e) ->
                    e = ForeignKeyViolation) ->
  forall w, exists w', fan_out self project_ids w = (Return tt, w').
Proof.
  intros Hfk. induction project_ids as [|p rest IH]; intros w.
  - exists w. reflexivity.
  - rewrite fan_out_step.
    destruct (score_statements p _) as [[m e]|db'] eqn:Hs.
    + apply Hfk in Hs as ->. simpl. apply IH.
    + apply IH.
Qed.


(** The projects a cascade for [url] recomputes when it starts in [w]:
    those of the rows of [v1.project_components] for that package. *)
Definition referencing (url : value R) (w : World) : list Z :=
  map p_project_id
    (List.filter (fun pc => text_equals (p_package_url pc) url)
       (project_components
          (database (sent "retrieve-affected-projects" w)))).

Lemma distinct_In x l : In x (distinct l) <-> In x l.
Proof.
  induction l as [|y l IH]; simpl; [tauto|].
  rewrite filter_In, IH, negb_true_iff, Z.eqb_neq.
  destruct (Z.eq_dec y x); intuition.
Qed.

Definition logged (e : Event) (w : World) : World :=
  {| database := database w; pending := pending w;
     trace := trace w ++ [e] |}.

(** What [_update_affected_projects] does, in one step. *)
Lemma update_affected_projects_run (url : value R) (w : World) :
  _update_affected_projects self url w =
  match distinct (referencing url w) with
  | [] => (Return tt, sent "retrieve-affected-projects" w)
  | ids =>
      fan_out self (elements (list_to_set ids : gset Z))
        (logged (LogInfo (size (list_to_set ids : gset Z)))
           (sent "retrieve-affected-projects" w))
  end.
Proof.
  unfold _update_affected_projects. unfold bind at 1.
  rewrite postgres_execute_sent. unfold AFFECTED_PROJECTS_SQL.
  change (dict_get "package_url" [("package_url", url)]) with (Some url).
  cbv beta iota. fold (referencing url w). rewrite with_database_same.
  destruct (distinct (referencing url w)); reflexivity.
Qed.

(** C10.  Within one cascade each affected project is recomputed at most
    once, also when several rows of [v1.project_components] (one per
    component version) tie it to the package: the events a cascade adds
    hold no project twice among their score updates, and only projects
    that reference the package. *)
Theorem cascade_recomputes_once (url : value R) (w : World) :
  exists events,
    trace (snd (_update_affected_projects self url w)) = trace w ++ events
    /\ NoDup (score_updates events)
    /\ (forall p, In p (score_updates events) -> In p (referencing url w)).
Proof.
  rewrite update_affected_projects_run.
  destruct (distinct (referencing url w)) as [|i ids] eqn:Hd.
  - exists [Executed "retrieve-affected-projects"].
    split; [reflexivity|]. split; [constructor | intros p []].
  - cbv zeta. set (ps := list_to_set (i :: ids) : gset Z).
    destruct (fan_out self (elements ps) _) as [r w'] eqn:Hrun.
    apply fan_out_trace in Hrun as (evs & done & later & Ht & Hi & Hs & _).
    simpl in Ht. simpl.
    exists (Executed "retrieve-affected-projects" :: LogInfo (size ps) :: evs).
    split; [rewrite Ht, <- !app_assoc; reflexivity|].
    change (score_updates
              (Executed "retrieve-affected-projects"
               :: LogInfo (size ps) :: evs))
      with (score_updates evs).
    rewrite Hs.
    assert (Hnd : NoDup (done ++ later))
      by (rewrite <- Hi; apply NoDup_elements).
    split; [apply NoDup_app in Hnd as [Hnd _]; exact Hnd|].
    intros p Hp.
    assert (Hin : p ∈ elements ps).
    { rewrite Hi. apply list_elem_of_In, in_or_app. left. exact Hp. }
    apply elem_of_elements in Hin. subst ps.
    apply elem_of_list_to_set, list_elem_of_In in Hin.
    rewrite <- Hd in Hin. apply (proj1 (distinct_In _ _)) in Hin. exact Hin.
Qed.

(** Whether the events hold the query that opens a cascade. *)
Definition cascaded (events : list Event) : bool :=
  existsb (event_eqb (Executed "retrieve-affected-projects")) events.

Lemma cascaded_app e1 e2 : cascaded (e1 ++ e2) = cascaded e1 || cascaded e2.
Proof. apply existsb_app. Qed.

Lemma update_affected_projects_cascaded (url : value R) (w : World) :
  cascaded (trace (snd (_update_affected_projects self url w))) = true.
Proof.
  rewrite update_affected_projects_run.
  destruct (distinct (referencing url w)) as [|i ids].
  - simpl. rewrite cascaded_app. simpl. apply orb_true_r.
  - cbv zeta.
    destruct (fan_out self _ _) as [r w'] eqn:Hrun.
    apply fan_out_trace in Hrun as (evs & _ & _ & Ht & _).
    simpl in *. rewrite Ht, !cascaded_app. simpl.
    rewrite orb_true_r. reflexivity.
Qed.



End Cascade.

(** *** On the catalog *)


(** Project 10 uses two versions of [pkg:generic/foo]; its score is
    updated once. *)
Example cascade_on_catalog :
  score_updates
    (trace (snd (_update_affected_projects (SC := scored) (handler true)
                   (VStr "pkg:generic/foo") (quiet catalog))))
  = [11; 10; 12].
Proof. vm_compute. reflexivity. Qed.

End cascade_properties.

(** ** The patch update engine *)

Module patch_properties.

Import components handlers runs cascade_properties concrete.
Local Open Scope handler_scope.

Section Engine.

Context {R : Type} {VR : VersionRange R} {JP : JsonPatchLibrary R}
        {SC : Scoring}.

Variable self : RequestHandler R.




(** *** Validation *)

Lemma model_validate_errors (d : dict R) all_errors :
  model_validate d = Return (inl all_errors) ->
  exists first rest, all_errors = first :: rest.
Proof.
  unfold model_validate.
  destruct (validate_opt_range "active_version" d) as [[e5|]|];
    [| |discriminate];
    destruct (validate_str_default "package_url" d) as [e1|];
    destruct (validate_str "name" d) as [e2|];
    destruct (validate_status "status" d) as [e3|];
    destruct (validate_str "icon_class" d) as [e4|];
    destruct (validate_opt_str "home_page" d) as [e6|];
    intros H; try discriminate H; injection H as <-; simpl; eauto.
Qed.

Lemma model_validate_fields (d : dict R) c :
  model_validate d = Return (inr c) ->
  validate_str_default "package_url" d = inr (package_url c) /\
  validate_str "name" d = inr (name c) /\
  validate_status "status" d = inr (status c) /\
  validate_str "icon_class" d = inr (icon_class c) /\
  validate_opt_range "active_version" d = Return (inr (active_version c)) /\
  validate_opt_str "home_page" d = inr (home_page c).
Proof.
  unfold model_validate.
  destruct (validate_opt_range "active_version" d) as [[e5|]|];
    [| |discriminate];
    destruct (validate_str_default "package_url" d) as [e1|];
    destruct (validate_str "name" d) as [e2|];
    destruct (validate_status "status" d) as [e3|];
    destruct (validate_str "icon_class" d) as [e4|];
    destruct (validate_opt_str "home_page" d) as [e6|];
    intros H; try discriminate H; injection H as <-; simpl; repeat split.
Qed.


(** Where [model_validate] raises an exception that is no validation
    error: in the validator of the version range. *)
Lemma validate_opt_range_raises loc (d : dict R) e :
  validate_opt_range loc d = Raise e <->
  exists v, dict_get loc d = Some v /\ v <> VNone /\
            range_validate v = Raise e.
Proof.
  unfold validate_opt_range.
  destruct (dict_get loc d) as [v|];
    [|split; [discriminate | intros (v & E & _); discriminate E]].
  split.
  - intros H. exists v. split; [reflexivity|].
    destruct v; try discriminate H; (split; [discriminate|]);
      destruct (range_validate _) as [[|]|e']; try discriminate H;
      injection H as <-; reflexivity.
  - intros (v0 & E & Hne & Hr). injection E as <-.
    destruct v; try (contradiction Hne; reflexivity); rewrite Hr; reflexivity.
Qed.

Lemma model_validate_raises (d : dict R) e :
  model_validate d = Raise e <->
  exists v, dict_get "active_version" d = Some v /\ v <> VNone /\
            range_validate v = Raise e.
Proof.
  rewrite <- validate_opt_range_raises. unfold model_validate.
  destruct (validate_opt_range "active_version" d) as [f5|e'];
    split; intros H; try discriminate H; injection H as <-; reflexivity.
Qed.

(** C5 (amended).  When the dictionary that the patch yields makes no
    Component, [patch] sends no statement after its initial read,
    whatever it answers; when, in addition, some field of that
    dictionary differs from the current snapshot, it raises BadRequest
    whose detail is the message of the first violation if the validation
    reports violations, and if instead the validator of the version
    range raises an exception that is no validation error, as it does for
    an [active_version] that is a number, [patch] raises that exception
    as it is. *)
Theorem patch_never_persists_invalid url body w original p updated_dict :
  snapshot url w = Some original ->
  JsonPatch body = inr p ->
  apply p (model_dump original) = inr updated_dict ->
  (forall updated, model_validate updated_dict <> Return (inr updated)) ->
  (exists outcome,
      patch self url body w = (outcome, sent "get-component" w))
  /\
  (all_equal (model_dump original) updated_dict (dict_keys updated_dict)
     = Return false ->
   (forall all_errors,
       model_validate updated_dict = Return (inl all_errors) ->
       exists first rest,
         all_errors = first :: rest /\
         patch self url body w
         = (Raise (BadRequest "Invalid Component generated by update"
                     (err_msg first) all_errors),
            sent "get-component" w))
   /\
   (forall v e,
       dict_get "active_version" updated_dict = Some v ->
       v <> VNone ->
       range_validate v = Raise e ->
       patch self url body w = (Raise e, sent "get-component" w))).
Proof.
  intros Hs Hp Ha Hinvalid.
  rewrite (patch_after_apply self url body w original p updated_dict Hs Hp Ha).
  split.
  - destruct (all_equal _ _ _) as [[|]|e]; try (eexists; reflexivity).
    destruct (model_validate updated_dict) as [[errs|updated]|e] eqn:Hv;
      try (eexists; reflexivity).
    contradiction (Hinvalid updated). reflexivity.
  - intros ->. split.
    + intros all_errors Hv. rewrite Hv.
      destruct (model_validate_errors _ _ Hv) as (first & rest & ->).
      exists first, rest. split; reflexivity.
    + intros v e Hget Hv Hraise.
      assert (Hm : model_validate updated_dict = Raise e)
        by (apply model_validate_raises; exists v; repeat split; assumption).
      rewrite Hm. reflexivity.
Qed.

(** C4.  What the code does when the sequence does not apply: the
    exception of the library is raised as it is, not as BadJsonPatch; the
    tables are as the initial read left them. *)
Theorem patch_apply_failure_escapes url body w original p error :
  snapshot url w = Some original ->
  JsonPatch body = inr p ->
  apply p (model_dump original) = inl error ->
  patch self url body w
  = (Raise (JsonPatchRaised error), sent "get-component" w).
Proof.
  unfold snapshot. intros Hs Hp Ha.
  unfold patch. unfold bind at 1. rewrite postgres_execute_sent.
  destruct (GET_SQL _ _) as [result db'| |] eqn:Hget; try discriminate.
  apply GET_SQL_keeps in Hget as ->. rewrite with_database_same.
  destruct (truthy result); [|discriminate]. simpl.
  destruct (model_validate (default [] (row result))) as [[|o]|];
    try discriminate.
  injection Hs as ->. rewrite Hp, Ha. reflexivity.
Qed.

(** A document that [JsonPatch] refuses is answered with BadJsonPatch,
    the tables being as the initial read left them. *)
Theorem patch_malformed_document url body w original error :
  snapshot url w = Some original ->
  JsonPatch body = inl error ->
  patch self url body w
  = (Raise (BadJsonPatch error), sent "get-component" w).
Proof.
  unfold snapshot. intros Hs Hp.
  unfold patch. unfold bind at 1. rewrite postgres_execute_sent.
  destruct (GET_SQL _ _) as [result db'| |] eqn:Hget; try discriminate.
  apply GET_SQL_keeps in Hget as ->. rewrite with_database_same.
  destruct (truthy result); [|discriminate]. simpl.
  destruct (model_validate (default [] (row result))) as [[|o]|];
    try discriminate.
  rewrite Hp. reflexivity.
Qed.

(** *** The conditional write *)




(** The record selected under the assigned key, once the statement has
    run, is the assigned row. *)
Lemma assigned_row_found (a : @PatchAssignment R) now
    (cs : list ComponentRow) :
  existsb (fun c => negb (selected a c)
                    && String.eqb (c_package_url c) (set_package_url a)) cs
    = false ->
  List.filter
    (fun c => String.eqb (c_package_url c) (set_package_url a))
    (map (fun c => if selected a c then assign a now c else c) cs)
  = map (assign a now) (List.filter (selected a) cs).
Proof.
  induction cs as [|c cs IH]; [reflexivity|].
  cbn [existsb map List.filter]. intros H.
  apply orb_false_iff in H as [Hc Hcs].
  destruct (selected a c) eqn:Hsel.
  - cbn [assign c_package_url]. rewrite String.eqb_refl.
    cbn [map]. rewrite IH by exact Hcs. reflexivity.
  - simpl in Hc. rewrite Hc. apply IH. exact Hcs.
Qed.

Lemma assigned_row_selected (a : @PatchAssignment R) now
    (cs : list ComponentRow) :
  existsb (fun c => negb (selected a c)
                    && String.eqb (c_package_url c) (set_package_url a)) cs
    = false ->
  List.filter
    (fun c => text_equals (c_package_url c) (VStr (set_package_url a) : value R))
    (map (fun c => if selected a c then assign a now c else c) cs)
  = map (assign a now) (List.filter (selected a) cs).
Proof. exact (assigned_row_found a now cs). Qed.




(** *** The cascade after the write *)

(** Whether a fact type for component scores is configured. *)
Definition fact_type_configured : bool :=
  match dict_get "project_fact_type_id" (config self) with
  | None | Some VNone => false
  | Some _ => true
  end.

Lemma project_update_required_rule original updated :
  _project_update_required self original updated
  = fact_type_configured
    && (negb (status_eqb (status updated) (status original))
        || (status_eqb (status updated) ACTIVE
            && active_version_differs updated original)).
Proof.
  unfold _project_update_required, fact_type_configured.
  destruct (dict_get "project_fact_type_id" (config self)) as [[]|];
    simpl; try reflexivity;
    destruct (negb (status_eqb _ _)); simpl; try reflexivity;
    destruct (status_eqb _ ACTIVE && _); reflexivity.
Qed.

Lemma get_trace kwargs w :
  trace (snd (_get self kwargs w))
  = (trace w ++ [Executed "get-component"])%list.
Proof.
  unfold _get. unfold bind at 1. rewrite postgres_execute_sent.
  destruct (GET_SQL kwargs _) as [q db'| |]; try reflexivity.
  destruct (negb (truthy q)); reflexivity.
Qed.

(** The run of [patch] from a write that went through. *)
Lemma patch_after_write url body w original p updated_dict updated
    affected w2 :
  snapshot url w = Some original ->
  JsonPatch body = inr p ->
  apply p (model_dump original) = inr updated_dict ->
  all_equal (model_dump original) updated_dict (dict_keys updated_dict)
    = Return false ->
  model_validate updated_dict = Return (inr updated) ->
  postgres_execute self PATCH_SQL
    (write_parameters self original updated_dict) "patch-component"
    (sent "get-component" w) = (Return affected, w2) ->
  affected <> 0%nat ->
  patch self url body w =
  ((if _project_update_required self original updated
    then _update_affected_projects self
           (opt_str_value (package_url updated))
    else ret tt) ;;
   _get self [("package_url", opt_str_value (package_url updated))]) w2.
Proof.
  intros Hs Hp Ha He Hv Hw Hn.
  rewrite (patch_after_apply self url body w original p updated_dict Hs Hp Ha).
  rewrite He, Hv. unfold bind at 1.
  fold (write_parameters self original updated_dict). rewrite Hw.
  destruct (Nat.eqb_spec affected 0); [contradiction | reflexivity].
Qed.

(** C3 (amended).  After a patch whose write went through, the cascade
    is started exactly when a fact type for component scores is
    configured and either the status differs between the original and
    the updated snapshot, or the updated status is Active and the active
    version differs. *)
Theorem cascade_decision url body w original p updated_dict updated
    affected w2 :
  snapshot url w = Some original ->
  JsonPatch body = inr p ->
  apply p (model_dump original) = inr updated_dict ->
  all_equal (model_dump original) updated_dict (dict_keys updated_dict)
    = Return false ->
  model_validate updated_dict = Return (inr updated) ->
  postgres_execute self PATCH_SQL
    (write_parameters self original updated_dict) "patch-component"
    (sent "get-component" w) = (Return affected, w2) ->
  affected <> 0%nat ->
  cascaded (trace (snd (patch self url body w)))
  = cascaded (trace w)
    || (fact_type_configured
        && (negb (status_eqb (status updated) (status original))
            || (status_eqb (status updated) ACTIVE
                && active_version_differs updated original))).
Proof.
  intros Hs Hp Ha He Hv Hw Hn.
  rewrite (patch_after_write url body w original p updated_dict updated
             affected w2 Hs Hp Ha He Hv Hw Hn).
  rewrite <- project_update_required_rule.
  assert (Ht2 : cascaded (trace w2) = cascaded (trace w)).
  { rewrite postgres_execute_sent in Hw.
    destruct (PATCH_SQL _ _); try discriminate.
    injection Hw as _ <-. simpl. rewrite !cascaded_app. simpl.
    rewrite !orb_false_r. reflexivity. }
  destruct (_project_update_required self original updated).
  - rewrite orb_true_r. unfold bind at 1.
    pose proof (update_affected_projects_cascaded self
                  (opt_str_value (package_url updated)) w2) as Hc.
    destruct (_update_affected_projects _ _ w2) as [[u|e] w3]; simpl in Hc.
    + rewrite get_trace, cascaded_app, Hc. reflexivity.
    + exact Hc.
  - rewrite orb_false_r. unfold bind at 1, ret.
    rewrite get_trace, cascaded_app, Ht2. simpl. apply orb_false_r.
Qed.


End Engine.

(** *** On the catalog *)



Lemma cascade_decision_witness :
  cascaded (trace (snd (patch (SC := scored) (handler true)
                          "pkg:generic/foo" deprecate (quiet catalog))))
  = true.
Proof.
  etransitivity;
    [ eapply (cascade_decision (SC := scored) (handler true));
      [reflexivity | reflexivity | reflexivity | reflexivity | reflexivity
       | lazy; reflexivity | discriminate]
    | reflexivity ].
Defined.

Lemma cascade_unconfigured_counterexample :
  let run := patch (SC := scored) (handler false) "pkg:generic/foo"
               deprecate (quiet catalog) in
  option_map status (snapshot "pkg:generic/foo" (quiet catalog))
    = Some ACTIVE /\
  (exists r, fst run = Return (Ok r)
             /\ dict_get "status" r = Some (VStr "Deprecated")) /\
  cascaded (trace (snd run)) = false.
Proof.
  cbv zeta. split; [reflexivity|]. split; [|reflexivity].
  eexists. split; vm_compute; reflexivity.
Qed.

Lemma patch_apply_failure_escapes_witness :
  patch (SC := scored) (handler true) "pkg:generic/foo" failed_test
    (quiet catalog)
  = (Raise (JsonPatchRaised JsonPatchTestFailed),
     sent "get-component" (quiet catalog)).
Proof.
  eapply (patch_apply_failure_escapes (SC := scored) (handler true));
    reflexivity.
Defined.

Lemma patch_malformed_document_witness :
  patch (SC := scored) (handler true) "pkg:generic/foo"
    (VList [operation_doc "replace" "name" (VStr "bar")]) (quiet catalog)
  = (Raise (BadJsonPatch JsonPointerException),
     sent "get-component" (quiet catalog)).
Proof.
  eapply (patch_malformed_document (SC := scored) (handler true));
    reflexivity.
Defined.

(** A patch that makes the version range a number. *)
Definition numeric_version : pyvalue :=
  VList [operation_doc "replace" "/active_version" (VInt 5)].

Lemma patch_never_persists_invalid_witness :
  patch (SC := scored) (handler true) "pkg:generic/foo" bogus_status
    (quiet catalog)
  = (Raise (BadRequest "Invalid Component generated by update"
              "Input should be 'Active', 'Deprecated' or 'Forbidden'"
              [enum_error "status"]),
     sent "get-component" (quiet catalog))
  /\
  patch (SC := scored) (handler true) "pkg:generic/foo" numeric_version
    (quiet catalog)
  = (Raise TypeError, sent "get-component" (quiet catalog)).
Proof.
  split.
  - edestruct (patch_never_persists_invalid (SC := scored) (handler true)
                 "pkg:generic/foo" bogus_status (quiet catalog))
      as (_ & H); [reflexivity .. | discriminate |].
    destruct (H eq_refl) as (Hreported & _).
    destruct (Hreported _ eq_refl) as (first & rest & Hl & Hrun).
    injection Hl as <- <-. exact Hrun.
  - edestruct (patch_never_persists_invalid (SC := scored) (handler true)
                 "pkg:generic/foo" numeric_version (quiet catalog))
      as (_ & H); [reflexivity .. | discriminate |].
    destruct (H eq_refl) as (_ & Hraised).
    apply (Hraised (VInt 5) TypeError); [reflexivity | discriminate
                                        | reflexivity].
Defined.

Lemma patch_removed_field_counterexample :
  let original :=
    {| package_url := Some "pkg:generic/bar"; name := "bar";
       status := DEPRECATED; icon_class := "fas fa-save";
       active_version := None; home_page := None |} in
  snapshot "pkg:generic/bar" (quiet catalog) = Some original /\
  (exists p updated_dict,
      JsonPatch drop_name = inr p /\
      apply p (model_dump original) = inr updated_dict /\
      model_validate updated_dict = Return (inl [missing "name"])) /\
  fst (patch (SC := scored) (handler true) "pkg:generic/bar" drop_name
         (quiet catalog))
  = Return NotModified.
Proof.
  cbv zeta. split; [reflexivity|]. split; [|reflexivity].
  eexists. eexists. repeat split; vm_compute; reflexivity.
Qed.




(** The decision on some pairs of snapshots, a fact type being
    configured: a status that changes, a version range that changes under
    an Active status, and changes that are neither. *)
Definition snapshot_of (st : ComponentStatus) (version : option string)
    (page : option string) : Component string :=
  {| package_url := Some "pkg:generic/foo"; name := "foo"; status := st;
     icon_class := "fas fa-save"; active_version := version;
     home_page := page |}.

Example cascade_rule_examples :
  _project_update_required (handler true)
    (snapshot_of ACTIVE (Some ">=2.0") None)
    (snapshot_of DEPRECATED (Some ">=2.0") None) = true
  /\
  _project_update_required (handler true)
    (snapshot_of ACTIVE (Some ">=2.0") None)
    (snapshot_of ACTIVE (Some ">=3.0") None) = true
  /\
  _project_update_required (handler true)
    (snapshot_of ACTIVE (Some ">=2.0") None)
    (snapshot_of ACTIVE (Some ">=2.0") (Some "https://example.com")) = false
  /\
  _project_update_required (handler true)
    (snapshot_of DEPRECATED (Some ">=2.0") None)
    (snapshot_of DEPRECATED (Some ">=3.0") (Some "https://example.com"))
  = false.
Proof. repeat split. Qed.

End patch_properties.

(** ** The aggregate loader *)

Module aggregate_properties.

Import models.
Local Open Scope list_scope.

Section Aggregate.

Context {V : Type}.

Variable coerce_project_fact : string -> V -> option V.

Variable application : Connection V.

(** How each of the eight sub-loads of a project ends, in the order in
    which [project] passes them to [asyncio.gather]. *)
Definition sub_loads (values : ProjectRow.t) (project_id : Z)
  : list (option exn) :=
  [ failure (namespace application (ProjectRow.namespace_id values));
    failure (project_type application (ProjectRow.project_type_id values));
    failure (project_facts coerce_project_fact application project_id);
    failure (project_links application project_id);
    failure (project_urls application project_id);
    failure (project_identifiers application project_id);
    failure (project_components application project_id);
    failure (project_dependencies application project_id) ].

Lemma nth_failure i (failures : list (option exn)) e :
  nth i failures None = Some e -> In (Some e) failures.
Proof.
  revert i. induction failures as [|f fs IH]; intros [|i]; simpl;
    try discriminate.
  - intros ->. left. reflexivity.
  - intros H. right. exact (IH i H).
Qed.

Lemma first_failure_is_one finished (failures : list (option exn)) e :
  first_failure finished failures = Some e -> In (Some e) failures.
Proof.
  induction finished as [|i later IH]; simpl.
  - induction failures as [|[x|] fs IHf]; simpl; try discriminate.
    + intros H. injection H as ->. left. reflexivity.
    + intros H. right. exact (IHf H).
  - destruct (nth i failures None) as [x|] eqn:Hn.
    + intros H. injection H as <-. exact (nth_failure i failures x Hn).
    + exact IH.
Qed.

Lemma first_failure_some finished (failures : list (option exn)) e :
  In (Some e) failures -> exists e', first_failure finished failures = Some e'.
Proof.
  intros Hin. induction finished as [|i later IH]; simpl.
  - induction failures as [|[x|] fs IHf]; simpl.
    + destruct Hin.
    + eexists. reflexivity.
    + destruct Hin as [H|H]; [discriminate H | exact (IHf H)].
  - destruct (nth i failures None) as [x|]; [eexists; reflexivity | exact IH].
Qed.

Lemma gather_fails {A0 A1 A2 A3 A4 A5 A6 A7} finished
    (a0 : result A0) (a1 : result A1) (a2 : result A2) (a3 : result A3)
    (a4 : result A4) (a5 : result A5) (a6 : result A6) (a7 : result A7) e :
  In (Some e) [failure a0; failure a1; failure a2; failure a3;
               failure a4; failure a5; failure a6; failure a7] ->
  exists e',
    gather finished a0 a1 a2 a3 a4 a5 a6 a7 = Raise e' /\
    In (Some e') [failure a0; failure a1; failure a2; failure a3;
                  failure a4; failure a5; failure a6; failure a7].
Proof.
  intros Hin. unfold gather.
  destruct (first_failure_some finished _ e Hin) as [e' He'].
  rewrite He'. exists e'. split; [reflexivity|].
  exact (first_failure_is_one finished _ e' He').
Qed.

(** C9.  Without a row for the project, [project] returns [None], the
    not-found outcome of the loader, and awaits no sub-load.  With one,
    as soon as any of the eight sub-loads awaited together fails,
    [project] raises the exception of a failed sub-load, whatever the
    order in which they finish, and so returns no aggregate; when exactly
    one fails, it is the exception of that one. *)
Theorem project_load_is_whole (finished : list nat) (project_id : Z) :
  (execute_Project_SQL application project_id = inr None ->
   project coerce_project_fact application finished project_id
   = Return None)
  /\
  (forall values,
      execute_Project_SQL application project_id = inr (Some values) ->
      (forall e,
          In (Some e) (sub_loads values project_id) ->
          exists e',
            project coerce_project_fact application finished project_id
            = Raise e'
            /\ In (Some e') (sub_loads values project_id))
      /\
      (forall i e,
          nth i (sub_loads values project_id) None = Some e ->
          (forall j, j <> i ->
                     nth j (sub_loads values project_id) None = None) ->
          project coerce_project_fact application finished project_id
          = Raise e)).
Proof.
  split.
  - intros H. unfold project. rewrite H. reflexivity.
  - intros values H.
    assert (Hany : forall e,
      In (Some e) (sub_loads values project_id) ->
      exists e',
        project coerce_project_fact application finished project_id
        = Raise e'
        /\ In (Some e') (sub_loads values project_id)).
    { intros e Hin. unfold project. rewrite H.
      destruct (gather_fails finished _ _ _ _ _ _ _ _ e Hin)
        as (e' & Hg & Hin').
      rewrite Hg. exists e'. split; [reflexivity | exact Hin']. }
    split; [exact Hany|].
    intros i e Hi Hothers.
    destruct (Hany e (nth_failure i _ e Hi)) as (e' & Hrun & Hin').
    rewrite Hrun. f_equal.
    apply In_nth with (d := None) in Hin' as (j & _ & Hj).
    destruct (Nat.eq_dec j i) as [->|Hne].
    + rewrite Hi in Hj. injection Hj as ->. reflexivity.
    + rewrite (Hothers j Hne) in Hj. discriminate Hj.
Qed.

End Aggregate.

(** *** A project whose facts cannot be loaded *)

Definition unreachable : pg_error := OtherPgError "08006".

Definition project_1 : ProjectRow.t :=
  {| ProjectRow.id := 1; ProjectRow.created_at := 1;
     ProjectRow.created_by := "admin";
     ProjectRow.last_modified_at := None;
     ProjectRow.last_modified_by := None;
     ProjectRow.namespace_id := 7; ProjectRow.project_type_id := 3;
     ProjectRow.name := "api"; ProjectRow.slug := "api";
     ProjectRow.description := None; ProjectRow.environments := None;
     ProjectRow.archived := false; ProjectRow.gitlab_project_id := None;
     ProjectRow.sentry_project_slug := None;
     ProjectRow.sonarqube_project_key := None;
     ProjectRow.pagerduty_service_id := None;
     ProjectRow.project_score := 80 |}.

Definition facts_down : Connection string :=
  {| execute_Project_SQL :=
       fun id => if Z.eqb id 1 then inr (Some project_1) else inr None;
     execute_Namespace_SQL := fun _ => inr None;
     execute_ProjectType_SQL := fun _ => inr None;
     execute_ProjectFact_COLLECTION_SQL := fun _ => inl unreachable;
     execute_ProjectLink_COLLECTION_SQL := fun _ => inr [];
     execute_ProjectURL_COLLECTION_SQL := fun _ => inr [];
     execute_ProjectIdentifier_COLLECTION_SQL := fun _ => inr [];
     execute_ProjectComponent_COLLECTION_SQL :=
       fun _ => inr [ {| ProjectComponent.name := "foo";
                         ProjectComponent.package_url := "pkg:generic/foo";
                         ProjectComponent.status := "Active";
                         ProjectComponent.version := "2.1" |} ];
     execute_ProjectDependency_COLLECTION_SQL := fun _ => inr [] |}.

Lemma project_load_is_whole_witness :
  project (fun _ v => Some v) facts_down [7; 6; 5; 4; 3; 2; 1; 0]%nat 2
  = Return None
  /\
  project (fun _ v => Some v) facts_down [7; 6; 5; 4; 3; 2; 1; 0]%nat 1
  = Raise (DatabaseError "Error loading type collection for 1" None
             (Some unreachable)).
Proof.
  split.
  - apply (project_load_is_whole (fun _ v => Some v) facts_down). reflexivity.
  - destruct (project_load_is_whole (fun _ v => Some v) facts_down
                [7; 6; 5; 4; 3; 2; 1; 0]%nat 1) as (_ & H).
    destruct (H project_1 eq_refl) as (_ & Hone).
    apply (Hone 2%nat).
    + reflexivity.
    + intros [|[|[|[|[|[|[|[|j]]]]]]]] Hj; try reflexivity.
      * contradiction Hj. reflexivity.
      * destruct j; reflexivity.
Defined.

End aggregate_properties.

(** ** The listing of the components *)

Module pagination_properties.

Import handlers runs pagination concrete.
Local Open Scope handler_scope.
Local Open Scope list_scope.

(** *** The order of the keys *)

Lemma ltb_lt a b : String.ltb a b = true <-> String_as_OT.lt a b.
Proof.
  unfold String.ltb. rewrite <- String_as_OT.cmp_lt.
  unfold String_as_OT.cmp. destruct (String.compare a b);
    split; intros H; try reflexivity; discriminate H.
Qed.

Lemma ltb_irrefl a : String.ltb a a = false.
Proof.
  unfold String.ltb.
  assert (H : String.compare a a = Eq)
    by (apply String_as_OT.cmp_eq; reflexivity).
  rewrite H. reflexivity.
Qed.

Lemma ltb_trans a b c :
  String.ltb a b = true -> String.ltb b c = true -> String.ltb a c = true.
Proof.
  rewrite !ltb_lt. apply String_as_OT.lt_trans.
Qed.

Lemma ltb_asym a b : String.ltb a b = true -> String.ltb b a = false.
Proof.
  intros H. destruct (String.ltb b a) eqn:E; [|reflexivity].
  pose proof (ltb_trans a b a H E) as Hc.
  rewrite ltb_irrefl in Hc. discriminate Hc.
Qed.

Lemma ltb_total a b :
  String.ltb a b = false -> a <> b -> String.ltb b a = true.
Proof.
  unfold String.ltb. intros H Hne.
  pose proof (String_as_OT.cmp_antisym b a) as Ha.
  unfold String_as_OT.cmp in Ha. rewrite Ha.
  destruct (String.compare a b) eqn:E; simpl.
  - apply String_as_OT.cmp_eq in E. contradiction.
  - discriminate H.
  - reflexivity.
Qed.

Lemma ltb_empty a : a <> "" -> String.ltb "" a = true.
Proof. destruct a; [contradiction | reflexivity]. Qed.

(** *** [ORDER BY] on unique keys *)

Abbreviation key := c_package_url.

(** Each row comes before the rows after it. *)
Fixpoint increasing (l : list ComponentRow) : Prop :=
  match l with
  | [] => True
  | x :: l' =>
      Forall (fun y => String.ltb (key x) (key y) = true) l' /\ increasing l'
  end.

Lemma place_In c x l : In x (place c l) <-> x = c \/ In x l.
Proof.
  induction l as [|y l IH]; simpl.
  - intuition.
  - destruct (String.ltb (c_package_url y) (c_package_url c)); simpl.
    + rewrite IH. intuition.
    + intuition.
Qed.

Lemma order_by_In x l : In x (order_by_package_url l) <-> In x l.
Proof.
  induction l as [|c l IH]; simpl; [tauto|].
  rewrite place_In, IH. intuition.
Qed.

Lemma place_length c l : length (place c l) = S (length l).
Proof.
  induction l as [|y l IH]; simpl; [reflexivity|].
  destruct (String.ltb _ _); simpl; [rewrite IH|]; reflexivity.
Qed.

Lemma order_by_length l : length (order_by_package_url l) = length l.
Proof.
  induction l as [|c l IH]; simpl; [reflexivity|].
  rewrite place_length, IH. reflexivity.
Qed.

Lemma place_increasing c l :
  increasing l ->
  (forall y, In y l -> key y <> key c) ->
  increasing (place c l).
Proof.
  induction l as [|x l IH]; intros Hinc Hne; simpl.
  - split; [constructor | exact I].
  - destruct Hinc as [Hx Hl].
    destruct (String.ltb (c_package_url x) (c_package_url c)) eqn:E.
    + split.
      * apply List.Forall_forall. intros y Hy. apply place_In in Hy as [->|Hy].
        -- exact E.
        -- rewrite List.Forall_forall in Hx. exact (Hx y Hy).
      * apply IH; [exact Hl|]. intros y Hy. apply Hne. right. exact Hy.
    + assert (Hcx : String.ltb (key c) (key x) = true).
      { apply ltb_total; [exact E|]. apply Hne. left. reflexivity. }
      split; [|split; assumption].
      constructor; [exact Hcx|].
      apply List.Forall_forall. intros y Hy.
      rewrite List.Forall_forall in Hx.
      exact (ltb_trans _ _ _ Hcx (Hx y Hy)).
Qed.

Lemma order_by_increasing l :
  List.NoDup (map key l) -> increasing (order_by_package_url l).
Proof.
  induction l as [|c l IH]; simpl; intros Hnd; [exact I|].
  inversion Hnd as [|k ks Hnotin Hrest]; subst.
  apply place_increasing; [exact (IH Hrest)|].
  intros y Hy Heq. apply Hnotin. rewrite <- Heq.
  apply in_map, order_by_In. exact Hy.
Qed.

Lemma filter_place (P : ComponentRow -> bool) c l :
  increasing l ->
  List.filter P (place c l)
  = if P c then place c (List.filter P l) else List.filter P l.
Proof.
  induction l as [|x l IH]; intros Hinc.
  - simpl. destruct (P c); reflexivity.
  - destruct Hinc as [Hx Hl]. simpl.
    destruct (String.ltb (c_package_url x) (c_package_url c)) eqn:E.
    + simpl. rewrite (IH Hl).
      destruct (P x), (P c); simpl; try rewrite E; reflexivity.
    + simpl. destruct (P c); [|reflexivity].
      assert (Hhead : forall m, Forall (fun y => String.ltb (key y) (key c) = false) m ->
                place c (List.filter P m) = c :: List.filter P m).
      { induction m as [|y m IHm]; intros Hm; [reflexivity|].
        inversion Hm as [|? ? Hy Hm']; subst. simpl.
        destruct (P y); [|exact (IHm Hm')].
        simpl. rewrite Hy. reflexivity. }
      symmetry. apply (Hhead (x :: l)). constructor; [exact E|].
      apply List.Forall_forall. intros y Hy. rewrite List.Forall_forall in Hx.
      destruct (String.ltb (key y) (key c)) eqn:Eyc; [|reflexivity].
      pose proof (ltb_trans _ _ _ (Hx y Hy) Eyc) as Hxc.
      rewrite Hxc in E. discriminate E.
Qed.

Lemma order_by_filter (P : ComponentRow -> bool) l :
  List.NoDup (map key l) ->
  order_by_package_url (List.filter P l)
  = List.filter P (order_by_package_url l).
Proof.
  induction l as [|c l IH]; intros Hnd; [reflexivity|].
  inversion Hnd as [|k ks Hnotin Hrest]; subst. simpl.
  rewrite (filter_place P c _ (order_by_increasing l Hrest)).
  destruct (P c); simpl; rewrite (IH Hrest); reflexivity.
Qed.

Lemma increasing_app l1 l2 :
  increasing (l1 ++ l2) <->
  increasing l1 /\ increasing l2 /\
  (forall a b, In a l1 -> In b l2 -> String.ltb (key a) (key b) = true).
Proof.
  induction l1 as [|x l1 IH]; simpl.
  - intuition.
  - rewrite IH, List.Forall_app, !List.Forall_forall. split.
    + intros ((H1 & H2) & H3 & H4 & H5). repeat split; try assumption.
      intros a b [<-|Ha] Hb; [exact (H2 b Hb) | exact (H5 a b Ha Hb)].
    + intros ((H1 & H2) & H3 & H4). repeat split; try assumption.
      * intros b Hb. apply H4; [left; reflexivity | exact Hb].
      * intros a b Ha Hb. apply H4; [right; exact Ha | exact Hb].
Qed.

Lemma increasing_keys l : increasing l -> List.NoDup (map key l).
Proof.
  induction l as [|x l IH]; simpl; intros H; [constructor|].
  destruct H as [Hx Hl]. constructor; [|exact (IH Hl)].
  intros Hin. apply in_map_iff in Hin as (y & Hk & Hy).
  rewrite List.Forall_forall in Hx. specialize (Hx y Hy).
  rewrite Hk, ltb_irrefl in Hx. discriminate Hx.
Qed.

(** The rows after a key are the rest of the ordered rows. *)
Lemma filter_after s done rest :
  (forall a, In a done -> String.ltb s (key a) = false) ->
  (forall b, In b rest -> String.ltb s (key b) = true) ->
  List.filter (fun c => String.ltb s (c_package_url c)) (done ++ rest) = rest.
Proof.
  intros Hd Hr. rewrite List.filter_app.
  assert (H1 : List.filter (fun c => String.ltb s (c_package_url c)) done = []).
  { induction done as [|a l IH]; [reflexivity|]. simpl.
    rewrite (Hd a (or_introl eq_refl)). apply IH.
    intros b Hb. apply Hd. right. exact Hb. }
  assert (H2 : List.filter (fun c => String.ltb s (c_package_url c)) rest = rest).
  { clear Hd H1. induction rest as [|a l IH]; [reflexivity|]. simpl.
    rewrite (Hr a (or_introl eq_refl)). f_equal. apply IH.
    intros b Hb. apply Hr. right. exact Hb. }
  rewrite H1, H2. reflexivity.
Qed.

(** *** Tokens and pages *)

Section Pages.

Context {R : Type} {VR : VersionRange R}.

Variable bigint_in : string -> option Z.

Variable default_limit : Z.

Variable self : RequestHandler R.

Lemma dict_get_del_other (k k' : string) (d : dict R) :
  k <> k' -> dict_get k (dict_del k' d) = dict_get k d.
Proof.
  intros Hne. induction d as [|[k0 v0] d IH]; simpl; [reflexivity|].
  destruct (String.eqb_spec k' k0) as [->|Hk0]; simpl.
  - destruct (String.eqb_spec k k0); [contradiction | reflexivity].
  - destruct (String.eqb k k0); [reflexivity | exact IH].
Qed.

(** The keys and the limit of the token that [with_first] derives. *)
Lemma with_first_token (t : PaginationToken R) (value : dict R) first :
  dict_get "package_url" value = Some first ->
  exists t',
    with_first default_limit t value = Return t' /\
    limit t' = limit t /\
    dict_get "starting_package" (keys t') = Some first /\
    (forall k, k <> "starting_package" -> k <> "limit" ->
               dict_get k (keys t') = dict_get k (keys t)).
Proof.
  intros Hv. unfold with_first. rewrite Hv. eexists. split; [reflexivity|].
  unfold ComponentToken, as_dict, dict_update, PaginationToken_init.
  cbn [fold_left fst snd].
  change (dict_set "starting_package" first
            (("limit", VInt (limit t)) :: keys t))
    with (("limit", VInt (limit t))
          :: dict_set "starting_package" first (keys t)).
  change (dict_get "starting_package"
            (("limit", VInt (limit t))
             :: dict_set "starting_package" first (keys t)))
    with (dict_get "starting_package"
            (dict_set "starting_package" first (keys t))).
  rewrite dict_get_set_same.
  change (dict_del "starting_package"
            (("limit", VInt (limit t))
             :: dict_set "starting_package" first (keys t)))
    with (("limit", VInt (limit t))
          :: dict_del "starting_package"
               (dict_set "starting_package" first (keys t))).
  cbn [default]. repeat split.
  intros k Hk1 Hk2. simpl.
  destruct (String.eqb_spec k "starting_package"); [contradiction|].
  rewrite dict_get_del_other by exact Hk1.
  apply dict_get_set_other. exact Hk1.
Qed.

(** A token with limit [n] that resumes after the key [s]. *)
Definition resumes_after (n : Z) (s : string) (t : PaginationToken R)
  : Prop :=
  limit t = n /\ dict_get "starting_package" (keys t) = Some (VStr s).

(** The components after the key [s], in the order of the listing, and
    the first [n] of them. *)
Definition rest_after (s : string) (db : Database) : list ComponentRow :=
  order_by_package_url
    (List.filter (fun c => String.ltb s (c_package_url c))
       (store.components db)).

Definition page_after (n : Z) (s : string) (db : Database)
  : list ComponentRow :=
  firstn (Z.to_nat n) (rest_after s db).

Lemma last_map {A B} (f : A -> B) (l : list A) :
  last (map f l) = option_map f (last l).
Proof.
  induction l as [|x [|y l] IH]; try reflexivity.
  exact IH.
Qed.

Lemma listed_key db c :
  dict_get "package_url" (listed (R := R) db c) = Some (VStr (key c)).
Proof. reflexivity. Qed.

Lemma row_count_of_bigint n :
  0 <= n -> n < 2 ^ 63 -> row_count_of n = inr (Some (Z.to_nat n)).
Proof.
  intros H0 H1. unfold row_count_of.
  destruct (Z.ltb_spec n (- 2 ^ 63)) as [H|_]; [lia|].
  destruct (Z.leb_spec (2 ^ 63) n) as [H|_]; [lia|].
  destruct (Z.ltb_spec n 0) as [H|_]; [lia | reflexivity].
Qed.

(** One request for a page: the store is asked for one row more than
    the page holds, and the token comes when it returns that row. *)
Lemma get_run t w n s :
  pending w = [] ->
  resumes_after n s t ->
  0 <= n ->
  n + 1 < 2 ^ 63 ->
  exists next,
    get bigint_in default_limit self t w
    = (Return (map (listed (database w)) (page_after n s (database w)), next),
       sent "get-components" w)
    /\
    match next with
    | None =>
        (length (rest_after s (database w)) <= Z.to_nat n)%nat \/ n = 0
    | Some t' =>
        (Z.to_nat n < length (rest_after s (database w)))%nat /\
        exists c, last (page_after n s (database w)) = Some c /\
                  resumes_after n (key c) t'
    end.
Proof.
  intros Hq [Hl Hs] Hn Hmax.
  assert (Hdb : database (sent "get-components" w) = database w)
    by (unfold sent; simpl; rewrite Hq; reflexivity).
  unfold get. unfold bind at 1. rewrite postgres_execute_sent, Hdb.
  unfold COLLECTION_SQL, as_dict, dict_update. cbn [fold_left fst snd].
  change (dict_set "limit" (VInt (limit t + 1))
            (("limit", VInt (limit t)) :: keys t))
    with (("limit", VInt (limit t + 1) : value R) :: keys t).
  change (dict_get "starting_package"
            (("limit", VInt (limit t + 1)) :: keys t))
    with (dict_get "starting_package" (keys t)).
  change (dict_get "limit" (("limit", VInt (limit t + 1)) :: keys t))
    with (Some (VInt (limit t + 1) : value R)).
  rewrite Hs, Hl. cbv beta iota. cbn [row_limit text_operand negb].
  rewrite (row_count_of_bigint (n + 1)) by lia.
  change (List.filter (fun c => text_after (c_package_url c) (VStr s : value R))
            (store.components (database w)))
    with (List.filter (fun c => String.ltb s (c_package_url c))
            (store.components (database w))).
  fold (rest_after s (database w)).
  assert (Hsame : with_database (database w) (sent "get-components" w)
                  = sent "get-components" w)
    by (unfold with_database, sent; simpl; rewrite Hq; reflexivity).
  rewrite Hsame. cbn [rows].
  rewrite length_map, length_firstn, firstn_map, firstn_firstn.
  replace (Init.Nat.min (Z.to_nat n) (Z.to_nat (n + 1))) with (Z.to_nat n)
    by lia.
  fold (page_after n s (database w)).
  destruct (Z.leb_spec
              (Z.of_nat (Init.Nat.min (Z.to_nat (n + 1))
                           (length (rest_after s (database w))))) n)
    as [Hshort|Hmore].
  - exists None. split; [reflexivity | left; lia].
  - rewrite last_map.
    destruct (last (page_after n s (database w))) as [c|] eqn:Hlast.
    + cbn [option_map].
      destruct (with_first_token t (listed (database w) c) (VStr (key c))
                  (listed_key _ c)) as (t' & Hw & Hl' & Hs' & _).
      exists (Some t'). unfold bind at 1, lift. rewrite Hw.
      split; [reflexivity|]. split; [lia|]. exists c. split; [reflexivity|].
      split; [rewrite Hl'; exact Hl | exact Hs'].
    + exists None. split; [reflexivity|]. right.
      apply last_None in Hlast. unfold page_after in Hlast.
      destruct (rest_after s (database w)) as [|x l]; [simpl in Hmore; lia|].
      destruct (Z.to_nat n) eqn:En; [lia | discriminate Hlast].
Qed.

Lemma last_split {A} (l : list A) x :
  last l = Some x -> exists front, l = front ++ [x].
Proof.
  induction l as [|y [|z l] IH]; simpl; intros H; try discriminate H.
  - injection H as ->. exists []. reflexivity.
  - destruct (IH H) as [front Hf]. exists (y :: front).
    simpl. rewrite <- Hf. reflexivity.
Qed.

(** Following the tokens from a token that resumes after [s] yields
    the rows after [s], in order, no page longer than the page size. *)
Lemma follow_covers n fuel :
  0 < n ->
  n + 1 < 2 ^ 63 ->
  forall done rest t s w,
    pending w = [] ->
    List.NoDup (map key (store.components (database w))) ->
    resumes_after n s t ->
    order_by_package_url (store.components (database w)) = done ++ rest ->
    (forall a, In a done -> String.ltb s (key a) = false) ->
    (forall b, In b rest -> String.ltb s (key b) = true) ->
    (length rest < fuel)%nat ->
    exists pages w',
      follow bigint_in default_limit self fuel t w
      = (Return (Some pages), w') /\
      concat pages = map (listed (database w)) rest /\
      Forall (fun page => (length page <= Z.to_nat n)%nat) pages /\
      database w' = database w /\ pending w' = [].
Proof.
  intros Hn Hmax. induction fuel as [|fuel IH];
    intros done rest t s w Hq Hnd Hres Hsorted Hdone Hrest Hfuel; [lia|].
  assert (Hinc : increasing (done ++ rest))
    by (rewrite <- Hsorted; apply order_by_increasing; exact Hnd).
  assert (Hafter : rest_after s (database w) = rest).
  { unfold rest_after. rewrite (order_by_filter _ _ Hnd), Hsorted.
    apply (filter_after s done rest Hdone Hrest). }
  destruct (get_run t w n s Hq Hres ltac:(lia) Hmax) as (next & Hget & Hnext).
  assert (Hdb : database (sent "get-components" w) = database w)
    by (unfold sent; simpl; rewrite Hq; reflexivity).
  cbn [follow]. unfold bind at 1. rewrite Hget. cbn [snd fst].
  unfold page_after in *. rewrite Hafter in *.
  assert (Hlen : (length (map (listed (R := R) (database w))
                            (firstn (Z.to_nat n) rest)) <= Z.to_nat n)%nat)
    by (rewrite length_map, length_firstn; lia).
  destruct next as [t'|].
  - destruct Hnext as (Hfull & c & Hlast & Hres').
    destruct (last_split _ _ Hlast) as [front Hfront].
    assert (Hsplit : rest = (front ++ [c]) ++ skipn (Z.to_nat n) rest)
      by (rewrite <- Hfront; symmetry; apply firstn_skipn).
    apply increasing_app in Hinc as (_ & Hincr & _).
    rewrite Hsplit in Hincr.
    apply increasing_app in Hincr as (Hpg & _ & Hcross).
    apply increasing_app in Hpg as (_ & _ & Hbefore).
    assert (Hc : String.ltb s (key c) = true).
    { apply Hrest. rewrite Hsplit. apply in_or_app. left.
      apply in_or_app. right. left. reflexivity. }
    destruct (IH (done ++ firstn (Z.to_nat n) rest)
                (skipn (Z.to_nat n) rest) t' (key c)
                (sent "get-components" w))
      as (pages & w' & Hrun & Hcat & Hsizes & Hw' & Hq').
    + apply sent_quiet. exact Hq.
    + rewrite Hdb. exact Hnd.
    + exact Hres'.
    + rewrite Hdb, Hsorted, <- app_assoc, firstn_skipn. reflexivity.
    + intros a Ha. apply in_app_or in Ha as [Ha|Ha].
      * destruct (String.ltb (key c) (key a)) eqn:E; [|reflexivity].
        pose proof (Hdone a Ha) as Hd.
        rewrite (ltb_trans _ _ _ Hc E) in Hd. discriminate Hd.
      * rewrite Hfront in Ha. apply in_app_or in Ha as [Ha|[<-|[]]].
        -- apply ltb_asym. apply Hbefore; [exact Ha | left; reflexivity].
        -- apply ltb_irrefl.
    + intros b Hb. apply Hcross; [|exact Hb].
      apply in_or_app. right. left. reflexivity.
    + rewrite length_skipn. lia.
    + exists (map (listed (database w)) (firstn (Z.to_nat n) rest) :: pages), w'.
      unfold bind at 1. rewrite Hrun. unfold ret. cbn [option_map concat].
      repeat split.
      * rewrite Hcat, Hdb, <- map_app, firstn_skipn. reflexivity.
      * constructor; [exact Hlen | exact Hsizes].
      * rewrite Hw'. exact Hdb.
      * exact Hq'.
  - exists [map (listed (database w)) (firstn (Z.to_nat n) rest)],
      (sent "get-components" w).
    unfold ret. cbn [concat]. rewrite app_nil_r.
    assert (Hall : firstn (Z.to_nat n) rest = rest).
    { destruct Hnext as [Hshort|Hnil]; [|lia].
      apply firstn_all2. exact Hshort. }
    rewrite Hall in *. repeat split;
      [repeat constructor; exact Hlen | exact Hdb | apply sent_quiet; exact Hq].
Qed.

Lemma listed_NoDup db (l : list ComponentRow) :
  List.NoDup (map key l) -> List.NoDup (map (listed (R := R) db) l).
Proof.
  induction l as [|c l IH]; simpl; intros H; [constructor|].
  inversion H as [|k ks Hnotin Hrest]; subst.
  constructor; [|exact (IH Hrest)].
  intros Hin. apply in_map_iff in Hin as (c' & Heq & Hc').
  apply Hnotin. apply in_map_iff. exists c'. split; [|exact Hc'].
  apply (f_equal (dict_get "package_url")) in Heq.
  rewrite !listed_key in Heq. injection Heq as Heq. exact Heq.
Qed.

(** C2.  For a store that does not change, whose [package_url]s are
    distinct and not empty, and a page size of at least one (one less
    than the largest row count of the store at most), a client that
    starts without a token and passes on the token of each page until a
    page comes without one is handed, within as many requests as there
    are components plus one, pages of at most the page size whose
    concatenation is the whole collection in ascending order of
    [package_url], no item twice and none left out; the token that
    [with_first] derives has the [package_url] of the given item as its
    starting key, the limit and every other key of the token it is
    derived from being kept; and a page comes with the token derived from
    its last item exactly when components remain after it, so that the
    last page comes without one also when it is full. *)
Theorem listing_follows_tokens w n fuel :
  pending w = [] ->
  List.NoDup (map c_package_url (store.components (database w))) ->
  (forall c, In c (store.components (database w)) -> c_package_url c <> "") ->
  0 < n ->
  n + 1 < 2 ^ 63 ->
  (length (store.components (database w)) < fuel)%nat ->
  (exists pages w',
      follow bigint_in default_limit self fuel
        (ComponentToken default_limit [("limit", VInt n)]) w
      = (Return (Some pages), w') /\
      database w' = database w /\
      concat pages = full_collection (database w) /\
      Forall (fun page => (length page <= Z.to_nat n)%nat) pages /\
      List.NoDup (concat pages) /\
      (forall c, In c (store.components (database w)) ->
                 In (listed (database w) c) (concat pages)))
  /\
  (forall (t : PaginationToken R) (value : dict R) first,
      dict_get "package_url" value = Some first ->
      exists t',
        with_first default_limit t value = Return t' /\
        limit t' = limit t /\
        dict_get "starting_package" (keys t') = Some first /\
        (forall k, k <> "starting_package" -> k <> "limit" ->
                   dict_get k (keys t') = dict_get k (keys t)))
  /\
  (forall (t : PaginationToken R) s,
      resumes_after n s t ->
      exists next,
        get bigint_in default_limit self t w
        = (Return (map (listed (database w)) (page_after n s (database w)),
                   next),
           sent "get-components" w) /\
        (next = None <->
         (length (rest_after s (database w)) <= Z.to_nat n)%nat) /\
        (forall t', next = Some t' ->
                    exists c, last (page_after n s (database w)) = Some c /\
                              resumes_after n (key c) t')).
Proof.
  intros Hq Hnd Hne Hn Hmax Hfuel. split; [|split; [exact with_first_token|]].
  - destruct (follow_covers n fuel Hn Hmax []
                (order_by_package_url (store.components (database w)))
                (ComponentToken default_limit [("limit", VInt n)]) "" w)
      as (pages & w' & Hrun & Hcat & Hsizes & Hw' & _).
    + exact Hq.
    + exact Hnd.
    + split; reflexivity.
    + reflexivity.
    + intros a [].
    + intros b Hb. apply ltb_empty, Hne, order_by_In. exact Hb.
    + rewrite order_by_length. exact Hfuel.
    + exists pages, w'. split; [exact Hrun|]. split; [exact Hw'|].
      split; [exact Hcat|]. split; [exact Hsizes|]. rewrite Hcat. split.
      * apply listed_NoDup, increasing_keys, order_by_increasing. exact Hnd.
      * intros c Hc. apply in_map, order_by_In. exact Hc.
  - intros t s Hres.
    destruct (get_run t w n s Hq Hres ltac:(lia) Hmax) as (next & Hget & Hnext).
    exists next. split; [exact Hget|]. destruct next as [t'|].
    + destruct Hnext as (Hmore & c & Hlast & Hres'). split.
      * split; [discriminate | lia].
      * intros t0 E. injection E as <-. exists c. split; assumption.
    + split.
      * split; [|reflexivity]. intros _.
        destruct Hnext as [H|H]; [exact H | lia].
      * intros t' E. discriminate E.
Qed.

End Pages.

(** *** Four packages, two to a page *)

Definition package (url : string) : ComponentRow :=
  component url url "Active" None.

Definition four_packages : Database :=
  {| store.components := [package "c"; package "a"; package "d"; package "b"];
     component_versions := [];
     project_components := [];
     project_facts := [];
     projects := [];
     current_timestamp := 100 |}.

Definition token_after (s : string) : PaginationToken string :=
  {| limit := 2; keys := [("starting_package", VStr s)] |}.

Definition items (urls : list string) : list pydict :=
  map (fun u => listed four_packages (package u)) urls.

Lemma listing_follows_tokens_witness :
  fst (follow decimal 100 (handler true) 5
         (ComponentToken 100 [("limit", VInt 2)]) (quiet four_packages))
  = Return (Some [items ["a"; "b"]; items ["c"; "d"]])
  /\
  with_first 100 (token_after "") (listed four_packages (package "b"))
  = Return (token_after "b")
  /\
  get decimal 100 (handler true) (token_after "") (quiet four_packages)
  = (Return (items ["a"; "b"], Some (token_after "b")),
     sent "get-components" (quiet four_packages))
  /\
  get decimal 100 (handler true) (token_after "b") (quiet four_packages)
  = (Return (items ["c"; "d"], None),
     sent "get-components" (quiet four_packages)).
Proof.
  destruct (listing_follows_tokens decimal 100 (handler true)
              (quiet four_packages) 2 5) as (Hpages & Htoken & Hget).
  - reflexivity.
  - apply NoDup_ListNoDup, (bool_decide_unpack _). vm_compute. reflexivity.
  - intros c Hc. simpl in Hc.
    destruct Hc as [<-|[<-|[<-|[<-|[]]]]]; discriminate.
  - lia.
  - lia.
  - simpl. lia.
  - split; [|split; [|split]].
    + destruct Hpages as (pages & w' & Hrun & _). vm_compute. reflexivity.
    + destruct (Htoken (token_after "") (listed four_packages (package "b"))
                  (VStr "b") eq_refl) as (t' & Hw & _).
      vm_compute. reflexivity.
    + destruct (Hget (token_after "") "" (conj eq_refl eq_refl))
        as (next & Hrun & _). vm_compute. reflexivity.
    + destruct (Hget (token_after "b") "b" (conj eq_refl eq_refl))
        as (next & Hrun & Hnone & _).
      rewrite Hrun. rewrite (proj2 Hnone) by (vm_compute; lia).
      reflexivity.
Defined.

End pagination_properties.

(** ** More on the record handler *)

Module patch_edges.

Import components handlers runs cascade_properties patch_properties concrete
  record_handler.
Local Open Scope handler_scope.

Section Edges.

Context {R : Type} {VR : VersionRange R} {JP : JsonPatchLibrary R}
        {SC : Scoring}.

Variable self : RequestHandler R.

(** The rows that the initial read of [patch] selects. *)
Definition read (url : string) (w : World) : list ComponentRow :=
  List.filter (fun c => String.eqb (c_package_url c) url)
    (store.components (database (sent "get-component" w))).

Lemma patch_after_read url body w :
  patch self url body w =
  (let result : QueryResult R :=
     {| row_count := length (read url w);
        rows := map component_record (read url w) |} in
   if negb (truthy result) then raise ItemNotFound else
   match model_validate (default [] (row result)) with
   | Raise e => raise e
   | Return (inl errs) => raise (PydanticValidationError errs)
   | Return (inr original) =>
       match JsonPatch body with
       | inl error => raise (BadJsonPatch error)
       | inr p =>
           match apply p (model_dump original) with
           | inl error => raise (JsonPatchRaised error)
           | inr updated_dict =>
               same <- lift (all_equal (model_dump original) updated_dict
                               (dict_keys updated_dict)) ;;
               if same then ret NotModified else
               match model_validate updated_dict with
               | Raise e => raise e
               | Return (inl all_errors) =>
                   raise (BadRequest "Invalid Component generated by update"
                            (first_msg all_errors) all_errors)
               | Return (inr updated) =>
                   affected <- postgres_execute self PATCH_SQL
                                 (write_parameters self original updated_dict)
                                 "patch-component" ;;
                   if Nat.eqb affected 0
                   then raise (DatabaseError
                                 "No rows were returned from PATCH_SQL"
                                 (Some "failed to update record") None)
                   else
                     (if _project_update_required self original updated
                      then _update_affected_projects self
                             (opt_str_value (package_url updated))
                      else ret tt) ;;
                     _get self [("package_url",
                                 opt_str_value (package_url updated))]
               end
           end
       end
   end) (sent "get-component" w).
Proof.
  unfold patch. unfold bind at 1. rewrite postgres_execute_sent.
  unfold GET_SQL.
  change (dict_get "package_url" [("package_url", VStr url : value R)])
    with (Some (VStr url : value R)).
  cbv beta iota zeta. rewrite with_database_same. reflexivity.
Qed.

(** [patch] on a [package_url] that no row of [v1.components] has
    when the initial read runs raises ItemNotFound after that single
    statement, whatever the request body is: the document is not looked
    at, nothing is written. *)
Theorem patch_absent_record url body w :
  (forall c, In c (store.components (database (sent "get-component" w))) ->
             c_package_url c <> url) ->
  patch self url body w = (Raise ItemNotFound, sent "get-component" w).
Proof.
  intros Hnone. rewrite patch_after_read.
  assert (Hread : read url w = []).
  { unfold read.
    induction (store.components (database (sent "get-component" w)))
      as [|c cs IH]; [reflexivity|].
    simpl. destruct (String.eqb_spec (c_package_url c) url) as [E|_].
    - exfalso. apply (Hnone c); [left; reflexivity | exact E].
    - apply IH. intros c' Hin. apply Hnone. right. exact Hin. }
  rewrite Hread. reflexivity.
Qed.

(** The validation of a stored row does not raise, its version being
    text or NULL; and when the row makes a Component. *)
Lemma stored_row_validated (c : ComponentRow) :
  exists outcome, model_validate (component_record c) = Return outcome.
Proof.
  unfold model_validate, validate_opt_range, component_record.
  cbn [dict_get String.eqb Ascii.eqb Bool.eqb].
  destruct (c_active_version c) as [s|]; cbn [opt_text range_validate];
    [destruct (range_validate_str s)|]; eexists; reflexivity.
Qed.

Lemma stored_row_validates (c : ComponentRow) :
  (exists original : Component R,
      model_validate (component_record c) = Return (inr original))
  <->
  status_of_string (c_status c) <> None /\
  (forall s, c_active_version c = Some s ->
             exists r, range_validate (VStr s : value R) = Return (inr r)).
Proof.
  unfold model_validate, component_record, validate_str_default, validate_str,
    validate_status, validate_opt_range, validate_opt_str.
  cbn [dict_get String.eqb Ascii.eqb Bool.eqb opt_text].
  destruct (status_of_string (c_status c)) as [st|].
  - destruct (c_active_version c) as [s|]; cbn [opt_text range_validate].
    + destruct (range_validate_str s) as [msg|r] eqn:Hr.
      * split.
        -- intros [o Ho]. destruct (c_home_page c); discriminate Ho.
        -- intros [_ H]. destruct (H s eq_refl) as [r Hr'].
           rewrite Hr in Hr'. discriminate Hr'.
      * split.
        -- intros _. split; [discriminate|].
           intros s' E. injection E as <-. exists r. rewrite Hr. reflexivity.
        -- intros _. destruct (c_home_page c); eexists; reflexivity.
    + split.
      * intros _. split; [discriminate|]. intros s E. discriminate E.
      * intros _. destruct (c_home_page c); eexists; reflexivity.
  - split.
    + intros [o Ho].
      destruct (c_active_version c) as [s|]; cbn [opt_text range_validate] in Ho;
        [destruct (range_validate_str s)|];
        destruct (c_home_page c); discriminate Ho.
    + intros [H _]. contradiction H. reflexivity.
Qed.

(** When the row that the initial read of [patch] finds does not
    make a Component, its status being none of the three or its
    [active_version] not a version range, [patch] raises pydantic's
    ValidationError as it is, after that single statement and whatever the
    request body is. *)
Theorem patch_invalid_stored_row url body w c :
  read url w = [c] ->
  (status_of_string (c_status c) = None \/
   exists s msg, c_active_version c = Some s /\
                 range_validate (VStr s : value R) = Return (inl msg)) ->
  exists errs,
    errs <> [] /\
    patch self url body w
    = (Raise (PydanticValidationError errs), sent "get-component" w).
Proof.
  intros Hread Hbad. rewrite patch_after_read, Hread.
  cbn [length map truthy row_count rows Nat.eqb negb row default]. unfold id.
  destruct (stored_row_validated c) as [outcome Hv]. rewrite Hv.
  destruct outcome as [errs|original].
  - exists errs. split; [|reflexivity].
    destruct (model_validate_errors _ _ Hv) as (first & rest & ->).
    discriminate.
  - exfalso.
    destruct (proj1 (stored_row_validates c) (ex_intro _ original Hv))
      as [Hst Hrange].
    destruct Hbad as [Hs | (s & msg & Hs & Hr)].
    + contradiction.
    + destruct (Hrange s Hs) as [r Hr']. rewrite Hr in Hr'. discriminate Hr'.
Qed.

(** *** The comparison of the two dictionaries *)

Lemma all_equal_app (o u : dict R) (before after : list string) :
  all_equal o u (before ++ after)
  = match all_equal o u before with
    | Return true => all_equal o u after
    | r => r
    end.
Proof.
  induction before as [|k before IH]; [reflexivity|].
  cbn [app all_equal].
  destruct (dict_get k o) as [a|]; [|reflexivity].
  destruct (dict_get k u) as [b|]; [|reflexivity].
  destruct (py_eq a b); [exact IH | reflexivity].
Qed.

(** The members of a dumped model are the fields of the handler. *)
Lemma model_dump_members (c : Component R) (k : string) :
  dict_get k (model_dump c) = None <-> ~ In k FIELDS.
Proof.
  unfold model_dump, FIELDS. cbn [dict_get].
  destruct (String.eqb_spec k "package_url") as [->|N1].
  { split; [discriminate | intros H; contradiction H; simpl; tauto]. }
  destruct (String.eqb_spec k "name") as [->|N2].
  { split; [discriminate | intros H; contradiction H; simpl; tauto]. }
  destruct (String.eqb_spec k "status") as [->|N3].
  { split; [discriminate | intros H; contradiction H; simpl; tauto]. }
  destruct (String.eqb_spec k "icon_class") as [->|N4].
  { split; [discriminate | intros H; contradiction H; simpl; tauto]. }
  destruct (String.eqb_spec k "active_version") as [->|N5].
  { split; [discriminate | intros H; contradiction H; simpl; tauto]. }
  destruct (String.eqb_spec k "home_page") as [->|N6].
  { split; [discriminate | intros H; contradiction H; simpl; tauto]. }
  split; [|reflexivity]. intros _ H. simpl in H.
  destruct H as [H|[H|[H|[H|[H|[H|[]]]]]]]; symmetry in H; contradiction.
Qed.

(** When the patched dictionary has a member that is no field of
    the model and the members before it equal those of the snapshot, the
    comparison of [patch] raises KeyError for that member: no validation,
    no statement after the initial read. *)
Theorem patch_unknown_member url body w original p updated_dict
    before k after :
  snapshot url w = Some original ->
  JsonPatch body = inr p ->
  apply p (model_dump original) = inr updated_dict ->
  dict_keys updated_dict = (before ++ k :: after)%list ->
  all_equal (model_dump original) updated_dict before = Return true ->
  ~ In k FIELDS ->
  patch self url body w = (Raise (KeyError k), sent "get-component" w).
Proof.
  intros Hs Hp Ha Hkeys Hbefore Hk.
  rewrite (patch_after_apply self url body w original p updated_dict Hs Hp Ha).
  rewrite Hkeys, all_equal_app, Hbefore. cbn [all_equal].
  rewrite (proj2 (model_dump_members original k) Hk). reflexivity.
Qed.

(** *** The statements *)

Lemma Forall2_map_right {A} (P : A -> A -> Prop) (f : A -> A) (l : list A) :
  (forall x, P x (f x)) -> Forall2 P l (map f l).
Proof.
  intros H. induction l as [|x l IH]; constructor; [apply H | exact IH].
Qed.

(** A [PATCH_SQL] that goes through reports the number of rows under
    [current_package_url]; it leaves every other row of [v1.components]
    as it was and in its place, keeps [created_at] and [created_by] of
    the row it updates, and touches neither the project facts nor the
    projects. *)
Theorem PATCH_SQL_frame (params : dict R) (db : Database) n db' :
  PATCH_SQL params db = SqlOk n db' ->
  exists a,
    bind_patch params = inr a /\
    n = length (List.filter (selected a) (store.components db)) /\
    Forall2
      (fun c c' =>
         c_created_at c' = c_created_at c /\
         c_created_by c' = c_created_by c /\
         (selected a c = false -> c' = c))
      (store.components db) (store.components db') /\
    project_facts db' = project_facts db /\
    projects db' = projects db /\
    current_timestamp db' = current_timestamp db.
Proof.
  unfold PATCH_SQL.
  destruct (bind_patch params) as [[k|e]|a]; try discriminate.
  intros H. exists a. split; [reflexivity|].
  destruct (List.filter (selected a) (store.components db)) as [|c hit] eqn:Hhit.
  - injection H as <- <-. repeat split.
    clear Hhit. induction (store.components db); constructor; auto.
  - destruct (existsb _ _ || Nat.ltb 1 (length (c :: hit))); [discriminate|].
    injection H as <- <-. cbn [store.components project_facts projects
                                current_timestamp].
    repeat split.
    apply Forall2_map_right. intros x.
    destruct (selected a x); repeat split; try reflexivity.
    intros E. discriminate E.
Qed.

Lemma unselected_rows_missed (a : @PatchAssignment R) now old
    (cs : list ComponentRow) :
  where_package_url a = VStr old ->
  old <> set_package_url a ->
  List.filter (fun c => String.eqb (c_package_url c) old)
    (map (fun c => if selected a c then assign a now c else c) cs) = [].
Proof.
  intros Hw Hne. induction cs as [|c cs IH]; [reflexivity|].
  cbn [map List.filter].
  destruct (selected a c) eqn:Hsel.
  - cbn [assign c_package_url].
    destruct (String.eqb_spec (set_package_url a) old) as [E|_];
      [symmetry in E; contradiction | exact IH].
  - unfold selected in Hsel. rewrite Hw in Hsel. simpl in Hsel.
    rewrite Hsel. exact IH.
Qed.

(** After a [PATCH_SQL] that updated a row, [GET_SQL] under the
    assigned [package_url] returns exactly the assigned row, with the
    timestamp of the update and the creation columns of the row it
    replaced; and when the statement renamed the component, [GET_SQL]
    under the former [package_url] returns nothing. *)
Theorem PATCH_SQL_then_GET_SQL (params : dict R) (db : Database) a n db' :
  bind_patch params = inr a ->
  PATCH_SQL params db = SqlOk n db' ->
  n <> 0%nat ->
  exists c,
    List.filter (selected a) (store.components db) = [c] /\
    GET_SQL [("package_url", VStr (set_package_url a) : value R)] db'
    = SqlOk {| row_count := 1;
               rows := [component_record
                          (assign a (current_timestamp db) c)] |} db' /\
    (forall old,
        where_package_url a = VStr old ->
        old <> set_package_url a ->
        GET_SQL [("package_url", VStr old : value R)] db'
        = SqlOk {| row_count := 0; rows := [] |} db').
Proof.
  intros Hb. unfold PATCH_SQL. rewrite Hb.
  destruct (List.filter (selected a) (store.components db)) as [|c hit] eqn:Hhit.
  { intros H Hn. injection H as <- _. contradiction Hn. reflexivity. }
  destruct (existsb _ _) eqn:Hclash; [discriminate|].
  destruct (Nat.ltb 1 (length (c :: hit))) eqn:Hlen; [discriminate|].
  apply Nat.ltb_ge in Hlen.
  destruct hit as [|c2 hit]; [|simpl in Hlen; lia].
  cbn [orb]. intros H _. injection H as _ <-.
  exists c. split; [reflexivity|]. split.
  - unfold GET_SQL.
    change (dict_get "package_url"
              [("package_url", VStr (set_package_url a) : value R)])
      with (Some (VStr (set_package_url a) : value R)).
    cbv beta iota zeta. cbn [store.components].
    rewrite (assigned_row_selected a _ _ Hclash), Hhit. reflexivity.
  - intros old Hw Hne. unfold GET_SQL.
    change (dict_get "package_url" [("package_url", VStr old : value R)])
      with (Some (VStr old : value R)).
    cbv beta iota zeta. cbn [store.components].
    change (fun c0 : ComponentRow =>
              text_equals (c_package_url c0) (VStr old : value R))
      with (fun c0 : ComponentRow => String.eqb (c_package_url c0) old).
    rewrite (unselected_rows_missed a _ old _ Hw Hne). reflexivity.
Qed.

(** *** The model *)

Lemma status_of_string_of_value st :
  status_of_string (status_value st) = Some st.
Proof. destruct st; reflexivity. Qed.

(** Validating what [model_dump] yields gives the model back, for
    a model that has a [package_url] and whose version range, when it has
    one, dumps to something other than [None] that validates to it. *)
Theorem model_dump_validates (c : Component R) url :
  package_url c = Some url ->
  (forall r, active_version c = Some r ->
             range_dump r <> VNone /\
             range_validate (range_dump r) = Return (inr r)) ->
  model_validate (model_dump c) = Return (inr c).
Proof.
  intros Hu Hr. destruct c as [u n st ic av hp]. simpl in Hu, Hr. subst u.
  unfold model_validate, model_dump, validate_str_default, validate_str,
    validate_status, validate_opt_range, validate_opt_str.
  cbn [dict_get String.eqb Ascii.eqb Bool.eqb opt_str_value package_url name
         status icon_class active_version home_page].
  rewrite status_of_string_of_value.
  destruct av as [r|].
  - destruct (Hr r eq_refl) as [Hn Hv]. rewrite Hv.
    destruct (range_dump r); try (contradiction Hn; reflexivity);
      destruct hp; reflexivity.
  - destruct hp; reflexivity.
Qed.

(** [_check_validity] never returns [False]: it returns [True] for a
    dictionary that makes a Component; for one on which the validation
    reports violations it raises the BadRequest that [patch] of the newer
    handler raises for the same patched dictionary, its detail being the
    message of the first violation in the order of the fields; and an
    exception of the validator of the version range that is no validation
    error, as the one for an [active_version] that is a number, is raised
    as it is by both. *)
Theorem check_validity_agrees url body w original p updated_dict :
  snapshot url w = Some original ->
  JsonPatch body = inr p ->
  apply p (model_dump original) = inr updated_dict ->
  all_equal (model_dump original) updated_dict (dict_keys updated_dict)
    = Return false ->
  _check_validity updated_dict <> Return false /\
  (_check_validity updated_dict = Return true <->
   exists updated, model_validate updated_dict = Return (inr updated)) /\
  (forall first rest,
      model_validate updated_dict = Return (inl (first :: rest)) ->
      _check_validity updated_dict
      = Raise (BadRequest "Invalid Component generated by update"
                 (err_msg first) (first :: rest)) /\
      patch self url body w
      = (Raise (BadRequest "Invalid Component generated by update"
                  (err_msg first) (first :: rest)),
         sent "get-component" w)) /\
  (forall v e,
      dict_get "active_version" updated_dict = Some v ->
      v <> VNone ->
      range_validate v = Raise e ->
      _check_validity updated_dict = Raise e /\
      patch self url body w = (Raise e, sent "get-component" w)) /\
  (forall e,
      _check_validity updated_dict = Raise e ->
      patch self url body w = (Raise e, sent "get-component" w)).
Proof.
  intros Hs Hp Ha He.
  rewrite (patch_after_apply self url body w original p updated_dict Hs Hp Ha),
    He.
  unfold _check_validity.
  split; [|split; [|split; [|split]]].
  - destruct (model_validate updated_dict) as [[|]|]; discriminate.
  - destruct (model_validate updated_dict) as [[errs|updated]|e]; split;
      intros H; try discriminate H; try reflexivity;
      try match goal with
          | E : exists _, _ |- _ => destruct E as [u Hu]; discriminate Hu
          end.
    exists updated. reflexivity.
  - intros first rest Hv. rewrite Hv. split; reflexivity.
  - intros v e Hget Hne Hr.
    assert (Hm : model_validate updated_dict = Raise e)
      by (apply model_validate_raises; exists v; repeat split; assumption).
    rewrite Hm. split; reflexivity.
  - intros e. destruct (model_validate updated_dict) as [[errs|updated]|e'];
      intros H; try discriminate H; injection H as <-; reflexivity.
Qed.

(** A patched dictionary without [package_url] still makes a
    Component, the field having a default; when it differs from the
    snapshot, [patch] sends its update and the driver raises KeyError for
    the parameter the dictionary lacks: no row is written, and the error
    is no BadRequest. *)
Theorem patch_without_package_url url body w original p updated_dict updated :
  snapshot url w = Some original ->
  JsonPatch body = inr p ->
  apply p (model_dump original) = inr updated_dict ->
  all_equal (model_dump original) updated_dict (dict_keys updated_dict)
    = Return false ->
  model_validate updated_dict = Return (inr updated) ->
  dict_get "package_url" updated_dict = None ->
  package_url updated = None /\
  patch self url body w
  = (Raise (KeyError "package_url"),
     sent "patch-component" (sent "get-component" w)).
Proof.
  intros Hs Hp Ha He Hv Hnone. split.
  - apply model_validate_fields in Hv as (V1 & _).
    unfold validate_str_default in V1. rewrite Hnone in V1.
    injection V1 as <-. reflexivity.
  - rewrite (patch_after_apply self url body w original p updated_dict
               Hs Hp Ha), He, Hv.
    unfold bind at 1. rewrite postgres_execute_sent.
    fold (write_parameters self original updated_dict).
    unfold PATCH_SQL, bind_patch, bind_text, bind_nullable.
    rewrite write_parameters_field by discriminate.
    rewrite Hnone. reflexivity.
Qed.

Lemma dict_get_key (d : dict R) k :
  In k (dict_keys d) -> exists v, dict_get k d = Some v.
Proof.
  induction d as [|[k' v'] d IH]; simpl; [intros []|].
  intros [E|Hin].
  - subst k'. rewrite String.eqb_refl. eexists. reflexivity.
  - destruct (String.eqb k k'); [eexists; reflexivity | exact (IH Hin)].
Qed.

Lemma model_dump_reflexive (c : Component R) k v :
  (forall r, active_version c = Some r ->
             py_eq (range_dump r) (range_dump r) = true) ->
  dict_get k (model_dump c) = Some v -> py_eq v v = true.
Proof.
  intros Hr. unfold model_dump. cbn [dict_get].
  assert (Hopt : forall o : option string,
            py_eq (opt_str_value o : value R) (opt_str_value o) = true)
    by (intros [s|]; simpl; [apply String.eqb_refl | reflexivity]).
  repeat match goal with
         | |- context [String.eqb k ?f] => destruct (String.eqb k f)
         end;
    intros E; try discriminate E; injection E as <-;
    try apply Hopt; try (simpl; apply String.eqb_refl).
  destruct (active_version c) as [r|]; [apply Hr |]; reflexivity.
Qed.

(** A patch that yields the snapshot with some members left out, and
    nothing else changed, is answered NotModified after the initial read:
    the comparison goes by the members of the patched dictionary, and
    the validation of the Component is not reached. *)
Theorem patch_removals_not_modified url body w original p updated_dict :
  snapshot url w = Some original ->
  JsonPatch body = inr p ->
  apply p (model_dump original) = inr updated_dict ->
  (forall k v, dict_get k updated_dict = Some v ->
               dict_get k (model_dump original) = Some v) ->
  (forall r, active_version original = Some r ->
             py_eq (range_dump r) (range_dump r) = true) ->
  patch self url body w = (Return NotModified, sent "get-component" w).
Proof.
  intros Hs Hp Ha Hsub Hr.
  rewrite (patch_after_apply self url body w original p updated_dict Hs Hp Ha).
  assert (Hall : forall keys,
            (forall k, In k keys -> In k (dict_keys updated_dict)) ->
            all_equal (model_dump original) updated_dict keys = Return true).
  { induction keys as [|k keys IH]; intros Hin; [reflexivity|].
    cbn [all_equal].
    destruct (dict_get_key updated_dict k (Hin k (or_introl eq_refl)))
      as [v Hv].
    rewrite (Hsub k v Hv), Hv.
    rewrite (model_dump_reflexive original k v Hr (Hsub k v Hv)).
    apply IH. intros k' Hk'. apply Hin. right. exact Hk'. }
  rewrite (Hall _ (fun k H => H)). reflexivity.
Qed.

End Edges.

(** *** On the catalog *)

Lemma patch_absent_record_witness :
  patch (SC := scored) (handler true) "pkg:generic/none" (VStr "no patch")
    (quiet catalog)
  = (Raise ItemNotFound, sent "get-component" (quiet catalog)).
Proof.
  apply (patch_absent_record (SC := scored) (handler true)).
  intros c [<-|[<-|[]]]; discriminate.
Defined.

(** A catalog with a row whose status is none of the three. *)
Definition stale_catalog : Database :=
  with_components
    (component "pkg:generic/old" "old" "Retired" None
     :: store.components catalog)
    catalog.

Lemma patch_invalid_stored_row_witness :
  exists errs,
    errs <> [] /\
    patch (SC := scored) (handler true) "pkg:generic/old" deprecate
      (quiet stale_catalog)
    = (Raise (PydanticValidationError errs),
       sent "get-component" (quiet stale_catalog)).
Proof.
  apply (patch_invalid_stored_row (SC := scored) (handler true)
           "pkg:generic/old" deprecate (quiet stale_catalog)
           (component "pkg:generic/old" "old" "Retired" None)).
  - reflexivity.
  - left. reflexivity.
Defined.

Definition add_owner : pyvalue :=
  VList [operation_doc "add" "/owner" (VStr "platform")].

Lemma patch_unknown_member_witness :
  patch (SC := scored) (handler true) "pkg:generic/bar" add_owner
    (quiet catalog)
  = (Raise (KeyError "owner"), sent "get-component" (quiet catalog)).
Proof.
  eapply (patch_unknown_member (SC := scored) (handler true)
            "pkg:generic/bar" add_owner (quiet catalog) _ _ _
            ["package_url"; "name"; "status"; "icon_class"; "active_version";
             "home_page"] "owner" []);
    [reflexivity | reflexivity | reflexivity | reflexivity | reflexivity |].
  intros H. simpl in H.
  destruct H as [H|[H|[H|[H|[H|[H|[]]]]]]]; discriminate H.
Defined.

(** The parameters of a statement that renames [pkg:generic/foo]. *)
Definition rename_parameters : pydict :=
  [ ("package_url", VStr "pkg:generic/foo2"); ("name", VStr "foo");
    ("status", VStr "Active"); ("home_page", VNone);
    ("icon_class", VStr "fas fa-save"); ("active_version", VStr ">=2.0");
    ("current_package_url", VStr "pkg:generic/foo");
    ("username", VStr "admin") ].

Lemma PATCH_SQL_frame_witness :
  exists a,
    bind_patch rename_parameters = inr a /\
    1%nat = length (List.filter (selected a) (store.components catalog)) /\
    Forall2
      (fun c c' =>
         c_created_at c' = c_created_at c /\
         c_created_by c' = c_created_by c /\
         (selected a c = false -> c' = c))
      (store.components catalog)
      [ {| c_package_url := "pkg:generic/foo2"; c_name := "foo";
           c_status := "Active"; c_home_page := None;
           c_icon_class := "fas fa-save"; c_active_version := Some ">=2.0";
           c_created_at := 1; c_created_by := "admin";
           c_last_modified_at := Some 100;
           c_last_modified_by := Some "admin" |};
        component "pkg:generic/bar" "bar" "Deprecated" None ] /\
    project_facts catalog = project_facts catalog /\
    projects catalog = projects catalog /\
    current_timestamp catalog = current_timestamp catalog.
Proof.
  exact (PATCH_SQL_frame rename_parameters catalog 1%nat _ eq_refl).
Defined.

Lemma PATCH_SQL_then_GET_SQL_witness :
  exists (db' : Database) (r : pydict),
    PATCH_SQL rename_parameters catalog = SqlOk 1%nat db' /\
    GET_SQL [("package_url", VStr "pkg:generic/foo2")] db'
    = SqlOk {| row_count := 1; rows := [r] |} db' /\
    GET_SQL [("package_url", VStr "pkg:generic/foo" : pyvalue)] db'
    = SqlOk {| row_count := 0; rows := [] |} db'.
Proof.
  destruct (PATCH_SQL_then_GET_SQL rename_parameters catalog _ 1%nat _
              eq_refl eq_refl (fun E : 1%nat = 0%nat => O_S 0 (eq_sym E)))
    as (c & Hc & Hnew & Hold).
  eexists. eexists. split; [reflexivity|]. split.
  - exact Hnew.
  - apply Hold; [reflexivity | discriminate].
Defined.

Lemma model_dump_validates_witness :
  model_validate (model_dump (snapshot_of ACTIVE (Some ">=2.0") None))
  = Return (inr (snapshot_of ACTIVE (Some ">=2.0") None)).
Proof.
  apply (model_dump_validates _ "pkg:generic/foo"); [reflexivity|].
  intros r E. injection E as <-. split; [discriminate | reflexivity].
Defined.

Lemma check_validity_agrees_witness :
  patch (SC := scored) (handler true) "pkg:generic/foo" bogus_status
    (quiet catalog)
  = (Raise (BadRequest "Invalid Component generated by update"
              "Input should be 'Active', 'Deprecated' or 'Forbidden'"
              [enum_error "status"]),
     sent "get-component" (quiet catalog))
  /\
  patch (SC := scored) (handler true) "pkg:generic/foo" numeric_version
    (quiet catalog)
  = (Raise TypeError, sent "get-component" (quiet catalog)).
Proof.
  split.
  - edestruct (check_validity_agrees (SC := scored) (handler true)
                 "pkg:generic/foo" bogus_status (quiet catalog))
      as (_ & _ & H & _); [reflexivity .. |].
    exact (proj2 (H _ _ eq_refl)).
  - edestruct (check_validity_agrees (SC := scored) (handler true)
                 "pkg:generic/foo" numeric_version (quiet catalog))
      as (_ & _ & _ & _ & H); [reflexivity .. |].
    apply H. reflexivity.
Defined.

Definition unkey : pyvalue :=
  VList [ operation_at "remove" "/package_url";
          operation_doc "replace" "/name" (VStr "baz") ].

Lemma patch_without_package_url_witness :
  patch (SC := scored) (handler true) "pkg:generic/bar" unkey (quiet catalog)
  = (Raise (KeyError "package_url"),
     sent "patch-component" (sent "get-component" (quiet catalog))).
Proof.
  eapply (patch_without_package_url (SC := scored) (handler true));
    reflexivity.
Defined.

Lemma patch_removals_not_modified_witness :
  patch (SC := scored) (handler true) "pkg:generic/bar" drop_name
    (quiet catalog)
  = (Return NotModified, sent "get-component" (quiet catalog)).
Proof.
  eapply (patch_removals_not_modified (SC := scored) (handler true)
            "pkg:generic/bar" drop_name (quiet catalog));
    [reflexivity | reflexivity | reflexivity | | discriminate].
  intros k v. cbn.
  repeat match goal with
         | |- context [String.eqb k ?f] =>
             destruct (String.eqb_spec k f) as [->|?]; cbn
         end; intros E; try discriminate E; exact E.
Defined.

End patch_edges.

(** ** More on the cascade *)

Module cascade_edges.

Import components handlers runs cascade_properties concrete.
Local Open Scope handler_scope.
Local Open Scope list_scope.

Section Completeness.

Context {R : Type} {VR : VersionRange R} {JP : JsonPatchLibrary R}
        {SC : Scoring}.

Variable self : RequestHandler R.

Lemma distinct_nil l : distinct l = [] -> l = [].
Proof. destruct l; [reflexivity | discriminate]. Qed.

(** When the only failures of the score updates are foreign key
    violations, [_update_affected_projects] returns normally having
    attempted the score update of every project that a row of
    [v1.project_components] ties to the package, each once; the number it
    logs beforehand is the number of these projects; and when no row
    names the package, it sends its query and nothing else. *)
Theorem cascade_recomputes_all (url : value R) (w : World) :
  (forall q db m e, score_statements q db = inl (m, e) ->
                    e = ForeignKeyViolation) ->
  exists w' events,
    _update_affected_projects self url w = (Return tt, w') /\
    trace w' = trace w ++ Executed "retrieve-affected-projects" :: events /\
    (forall p, In p (score_updates events) <-> In p (referencing url w)) /\
    List.NoDup (score_updates events) /\
    (referencing url w = [] -> events = []) /\
    (referencing url w <> [] ->
     exists rest, events = LogInfo (length (score_updates events)) :: rest).
Proof.
  intros Hfk. rewrite update_affected_projects_run.
  destruct (distinct (referencing url w)) as [|i ids] eqn:Hd.
  - apply distinct_nil in Hd. rewrite Hd.
    exists (sent "retrieve-affected-projects" w), [].
    repeat split; try tauto; try constructor.
  - cbv zeta. set (ps := list_to_set (i :: ids) : gset Z).
    destruct (fan_out_returns self (elements ps) Hfk
                (logged (LogInfo (size ps))
                   (sent "retrieve-affected-projects" w))) as [w' Hrun].
    destruct (fan_out_trace self _ _ _ _ Hrun)
      as (evs & done & later & Ht & Hi & Hs & Hlater).
    rewrite (Hlater eq_refl), app_nil_r in Hi. subst done.
    exists w', (LogInfo (size ps) :: evs).
    change (score_updates (LogInfo (size ps) :: evs))
      with (score_updates evs).
    rewrite Hs. split; [exact Hrun|]. split.
    { rewrite Ht. simpl. rewrite <- !app_assoc. reflexivity. }
    assert (Hmem : forall p, In p (elements ps) <-> In p (referencing url w)).
    { intros p. rewrite <- (distinct_In p (referencing url w)), Hd.
      rewrite <- !list_elem_of_In. subst ps.
      rewrite elem_of_elements, elem_of_list_to_set. reflexivity. }
    split; [exact Hmem|]. split.
    { apply NoDup_ListNoDup, NoDup_elements. }
    split.
    + intros Hnone. rewrite Hnone in Hd. discriminate Hd.
    + intros _. exists evs. reflexivity.
Qed.

End Completeness.

Lemma cascade_recomputes_all_witness :
  exists w' events,
    _update_affected_projects (SC := scored) (handler true)
      (VStr "pkg:generic/foo") (quiet catalog) = (Return tt, w') /\
    trace w' = Executed "retrieve-affected-projects" :: events /\
    (forall p, In p (score_updates events) <-> In p [10; 10; 11; 12]) /\
    List.NoDup (score_updates events).
Proof.
  destruct (cascade_recomputes_all (SC := scored) (handler true)
              (VStr "pkg:generic/foo") (quiet catalog))
    as (w' & events & Hrun & Ht & Hin & Hnd & _).
  - intros q db m e. simpl. unfold no_faults.
    destruct (has_project db q); intros E; [discriminate E|].
    injection E as _ <-. reflexivity.
  - exists w', events. repeat split; try assumption; apply Hin.
Defined.

End cascade_edges.

(** ** More on the listings *)

Module listing_edges.

Import handlers runs pagination pagination_properties concrete.
Local Open Scope list_scope.

Lemma NoDup_map_filter {A B} (f : A -> B) (P : A -> bool) (l : list A) :
  List.NoDup (map f l) -> List.NoDup (map f (List.filter P l)).
Proof.
  induction l as [|x l IH]; simpl; intros H; [constructor|].
  inversion H as [|k ks Hnotin Hrest]; subst.
  destruct (P x); simpl; [|exact (IH Hrest)].
  constructor; [|exact (IH Hrest)].
  intros Hin. apply Hnotin. apply in_map_iff in Hin as (y & Hy & Hin).
  apply filter_In in Hin as [Hin _]. apply in_map_iff. exists y. tauto.
Qed.

Lemma firstn_short {A} (n : nat) (l : list A) :
  (length (firstn n l) < n)%nat -> firstn n l = l.
Proof.
  intros H. apply firstn_all2. rewrite length_firstn in H. lia.
Qed.

Lemma In_firstn {A} (n : nat) (l : list A) x : In x (firstn n l) -> In x l.
Proof.
  intros H. rewrite <- (firstn_skipn n l). apply in_or_app. left. exact H.
Qed.

Section Page.

Context {R : Type} {VR : VersionRange R}.

Variable bigint_in : string -> option Z.

Lemma row_count_of_inr n count :
  row_count_of n = inr count ->
  0 <= n < 2 ^ 63 /\ count = Some (Z.to_nat n).
Proof.
  unfold row_count_of.
  destruct (Z.ltb_spec n (- 2 ^ 63)); [discriminate|].
  destruct (Z.leb_spec (2 ^ 63) n); [discriminate|]. cbn [orb].
  destruct (Z.ltb_spec n 0); [discriminate|].
  intros E. injection E as <-. split; [lia | reflexivity].
Qed.

(** A [COLLECTION_SQL] that goes through leaves the tables alone; its
    page holds stored components only, all of them after the starting
    package, in ascending order of their [package_url] when that is a key
    of the table.  When its [limit] is an [int], that number is not
    negative and below 2^63, the page holds at most that many components,
    and a page with fewer holds every component after the starting
    package; when its [limit] is [None], the page holds every component
    after the starting package. *)
Theorem COLLECTION_SQL_page (params : dict R) (db : Database) q db' :
  COLLECTION_SQL bigint_in params db = SqlOk q db' ->
  exists start page,
    dict_get "starting_package" params = Some start /\
    db' = db /\
    rows q = map (listed db) page /\
    row_count q = length page /\
    (forall c, In c page ->
               In c (store.components db) /\
               text_after (key c) start = true) /\
    (List.NoDup (map key (store.components db)) -> increasing page) /\
    (forall n,
        dict_get "limit" params = Some (VInt n) ->
        0 <= n < 2 ^ 63 /\
        Z.of_nat (length page) <= n /\
        (Z.of_nat (length page) < n ->
         forall c, In c (store.components db) ->
                   text_after (key c) start = true -> In c page)) /\
    (dict_get "limit" params = Some VNone ->
     forall c, In c (store.components db) ->
               text_after (key c) start = true -> In c page).
Proof.
  unfold COLLECTION_SQL.
  destruct (dict_get "starting_package" params) as [start|]; [|discriminate].
  destruct (dict_get "limit" params) as [limit|]; [|discriminate].
  destruct (text_operand start); [|discriminate]. cbn [negb].
  destruct (row_limit bigint_in limit) as [e|count] eqn:Hlimit;
    [discriminate|].
  intros H. injection H as <- <-.
  set (ordered := order_by_package_url
                    (List.filter (fun c => text_after (c_package_url c) start)
                       (store.components db))).
  set (page := match count with
               | Some n => firstn n ordered
               | None => ordered
               end).
  assert (Hordered : forall c, In c ordered <->
            In c (store.components db) /\ text_after (key c) start = true).
  { intros c. unfold ordered. rewrite order_by_In, filter_In. reflexivity. }
  assert (Hsub : forall c, In c page -> In c ordered).
  { intros c. unfold page. destruct count; [apply In_firstn | tauto]. }
  exists start, page. cbn [rows row_count].
  do 4 (split; [reflexivity|]). split; [|split; [|split]].
  - intros c Hc. apply Hordered, Hsub. exact Hc.
  - intros Hnd.
    assert (Hinc : increasing ordered)
      by (apply order_by_increasing, NoDup_map_filter; exact Hnd).
    unfold page. destruct count as [n|]; [|exact Hinc].
    rewrite <- (firstn_skipn n) in Hinc.
    apply increasing_app in Hinc as [Hinc _]. exact Hinc.
  - intros n E. injection E as ->. cbn [row_limit] in Hlimit.
    apply row_count_of_inr in Hlimit as [Hn ->]. unfold page.
    split; [exact Hn|]. split.
    + rewrite length_firstn. lia.
    + intros Hshort c Hin Hafter.
      rewrite firstn_short by lia. apply Hordered. split; assumption.
  - intros E. injection E as ->. cbn [row_limit] in Hlimit.
    injection Hlimit as <-. intros c Hin Hafter.
    apply Hordered. split; assumption.
Qed.

(** The projects that use a version, as the second join finds them. *)
Definition users (db : Database) (v : ComponentVersionRow)
  : list ProjectComponentRow :=
  List.filter (fun p => Z.eqb (p_version_id p) (v_id v))
    (project_components db).

Definition versions_of (db : Database) (c : ComponentRow)
  : list ComponentVersionRow :=
  List.filter (fun v => String.eqb (v_package_url v) (c_package_url c))
    (component_versions db).

Definition unused (db : Database) (v : ComponentVersionRow) : bool :=
  match users db v with
  | [] => true
  | _ => false
  end.

Lemma count_app {A} (l1 l2 : list (option A)) :
  count (l1 ++ l2) = count l1 + count l2.
Proof.
  unfold count. rewrite List.filter_app, length_app. lia.
Qed.

Lemma count_Some {A B} (f : A -> option B) (l : list A) :
  (forall x, f x <> None) -> count (map f l) = Z.of_nat (length l).
Proof.
  intros H. unfold count. f_equal.
  induction l as [|x l IH]; [reflexivity|]. simpl.
  destruct (f x) eqn:E; [simpl; rewrite IH; reflexivity|].
  contradiction (H x).
Qed.

Lemma counts_of_versions db (vs : list ComponentVersionRow) :
  let rows_of v :=
    match users db v with
    | [] => [(Some v, None)]
    | ps => map (fun p => (Some v, Some p)) ps
    end in
  count (map fst (flat_map rows_of vs))
  = Z.of_nat (length (flat_map (users db) vs)
              + length (List.filter (unused db) vs))
  /\
  count (map snd (flat_map rows_of vs))
  = Z.of_nat (length (flat_map (users db) vs)).
Proof.
  cbv zeta. induction vs as [|v vs [IH1 IH2]]; [split; reflexivity|].
  cbn [flat_map List.filter]. rewrite !map_app, !count_app, IH1, IH2.
  rewrite !length_app.
  assert (Hun : unused db v = match users db v with [] => true | _ => false end)
    by reflexivity.
  rewrite Hun. clear Hun.
  destruct (users db v) as [|p ps] eqn:Hu.
  - cbn [map fst snd length]. change (count [Some v]) with 1.
    change (count [@None ProjectComponentRow]) with 0.
    split; lia.
  - rewrite !map_map. cbn [fst snd].
    rewrite (count_Some (fun _ : ProjectComponentRow => Some v)) by discriminate.
    rewrite (count_Some (fun p0 : ProjectComponentRow => Some p0))
      by discriminate.
    split; lia.
Qed.

(** The two counts of a listed component count rows of the join,
    not versions or projects: [project_count] is the number of pairs of a
    version of the component and a project component that uses that
    version, and [version_count] is that number plus the number of
    versions that no project uses; so a version used by several projects
    counts once for each of them. *)
Theorem listed_counts (db : Database) (c : ComponentRow) :
  dict_get "project_count" (listed (R := R) db c)
  = Some (VInt (Z.of_nat (length (flat_map (users db) (versions_of db c)))))
  /\
  dict_get "version_count" (listed (R := R) db c)
  = Some (VInt (Z.of_nat
                  (length (flat_map (users db) (versions_of db c))
                   + length (List.filter (unused db) (versions_of db c))))).
Proof.
  unfold listed. cbn [dict_get String.eqb Ascii.eqb Bool.eqb].
  unfold joined. fold (versions_of db c).
  destruct (versions_of db c) as [|v vs].
  - split; reflexivity.
  - destruct (counts_of_versions db (v :: vs)) as [H1 H2].
    cbv zeta in H1, H2. unfold users in H1, H2 at 1.
    split; f_equal; f_equal; [exact H2 | exact H1].
Qed.

End Page.

(** Two versions of [pkg:generic/foo], each used by two projects: four
    rows of the join. *)
Example listed_counts_on_catalog :
  map (fun r : pydict => (dict_get "version_count" r,
                          dict_get "project_count" r))
    (full_collection catalog)
  = [ (Some (VInt 0), Some (VInt 0)); (Some (VInt 4), Some (VInt 4)) ].
Proof. vm_compute. reflexivity. Qed.

Lemma COLLECTION_SQL_page_witness :
  exists (q : QueryResult string) page,
    COLLECTION_SQL decimal [("starting_package", VStr "pkg:generic/a");
                            ("limit", VInt 1)] catalog = SqlOk q catalog /\
    rows q = map (listed catalog) page /\
    Z.of_nat (length page) <= 1 /\
    increasing page.
Proof.
  destruct (COLLECTION_SQL_page decimal
              [("starting_package", VStr "pkg:generic/a" : pyvalue);
               ("limit", VInt 1)] catalog _ _ eq_refl)
    as (start & page & _ & _ & Hr & _ & _ & Hinc & Hint & _).
  destruct (Hint 1 eq_refl) as (_ & Hl & _).
  eexists. exists page. split; [reflexivity|].
  repeat split; try assumption.
  apply Hinc. repeat constructor; simpl; intuition discriminate.
Defined.

End listing_edges.

(** ** The components of a project *)

Module project_listing.

Import components handlers runs pagination_properties concrete
  project_components_handler.
Local Open Scope list_scope.

(** Each row comes no later than the rows after it. *)
Fixpoint ascending (l : list joined_row) : Prop :=
  match l with
  | [] => True
  | x :: l' =>
      Forall (fun y => String.ltb (row_url y) (row_url x) = false) l'
      /\ ascending l'
  end.

Lemma place_row_In j x l : In x (place_row j l) <-> x = j \/ In x l.
Proof.
  induction l as [|y l IH]; simpl.
  - intuition.
  - destruct (String.ltb (row_url y) (row_url j)); simpl.
    + rewrite IH. intuition.
    + intuition.
Qed.

Lemma order_rows_In x l : In x (order_rows l) <-> In x l.
Proof.
  induction l as [|j l IH]; simpl; [tauto|].
  rewrite place_row_In, IH. intuition.
Qed.

Lemma place_row_ascending j l : ascending l -> ascending (place_row j l).
Proof.
  induction l as [|x l IH]; intros Hasc; simpl.
  - split; [constructor | exact I].
  - destruct Hasc as [Hx Hl].
    destruct (String.ltb (row_url x) (row_url j)) eqn:E.
    + split; [|exact (IH Hl)].
      apply List.Forall_forall. intros y Hy.
      apply place_row_In in Hy as [->|Hy]; [exact (ltb_asym _ _ E)|].
      rewrite List.Forall_forall in Hx. exact (Hx y Hy).
    + split; [|split; assumption].
      constructor; [exact E|].
      apply List.Forall_forall. intros y Hy.
      rewrite List.Forall_forall in Hx. specialize (Hx y Hy).
      destruct (String.ltb (row_url y) (row_url j)) eqn:Hyj; [|reflexivity].
      destruct (string_dec (row_url x) (row_url j)) as [Heq|Hne].
      * rewrite Heq, Hyj in Hx. discriminate Hx.
      * rewrite (ltb_trans _ _ _ Hyj (ltb_total _ _ E Hne)) in Hx.
        discriminate Hx.
Qed.

Lemma order_rows_ascending l : ascending (order_rows l).
Proof.
  induction l as [|j l IH]; simpl; [exact I|].
  apply place_row_ascending. exact IH.
Qed.

Lemma join_In (db : Database) p v c :
  In (p, v, c) (join db) <->
  In p (project_components db) /\
  In v (component_versions db) /\
  In c (store.components db) /\
  v_id v = p_version_id p /\
  c_package_url c = v_package_url v.
Proof.
  unfold join. rewrite in_flat_map. split.
  - intros (p' & Hp & H). apply in_flat_map in H as (v' & Hv & H).
    apply in_map_iff in H as (c' & E & Hc). injection E as -> -> ->.
    apply filter_In in Hv as [Hv Ev]. apply filter_In in Hc as [Hc Ec].
    apply Z.eqb_eq in Ev. apply String.eqb_eq in Ec. tauto.
  - intros (Hp & Hv & Hc & Ev & Ec). exists p. split; [exact Hp|].
    apply in_flat_map. exists v. split.
    + apply filter_In. split; [exact Hv | apply Z.eqb_eq; exact Ev].
    + apply in_map. apply filter_In.
      split; [exact Hc | apply String.eqb_eq; exact Ec].
Qed.

Section Project.

Context {R : Type} {VR : VersionRange R}.

(** A [COLLECTION_SQL] of the project components handler that
    goes through leaves the tables alone and returns one row for each
    project component of the project whose version belongs to a component
    after the starting package, none left out whatever [limit] the
    parameters carry, in ascending order of the [package_url]; a
    component that the project uses in several versions is listed once
    for each. *)
Theorem project_components_page (params : dict R) (db : Database) q db' :
  COLLECTION_SQL params db = SqlOk q db' ->
  exists start project_id page,
    dict_get "starting_package" params = Some start /\
    dict_get "project_id" params = Some (VInt project_id) /\
    db' = db /\
    rows q = map project_component_record page /\
    row_count q = length page /\
    (forall p v c,
        In (p, v, c) page <->
        In p (project_components db) /\
        In v (component_versions db) /\
        In c (store.components db) /\
        v_id v = p_version_id p /\
        c_package_url c = v_package_url v /\
        pagination.text_after (c_package_url c) start = true /\
        p_project_id p = project_id) /\
    ascending page /\
    (forall n, COLLECTION_SQL (dict_set "limit" n params) db
               = COLLECTION_SQL params db).
Proof.
  unfold COLLECTION_SQL.
  destruct (dict_get "starting_package" params) as [start|] eqn:Hs;
    [|discriminate].
  destruct (dict_get "project_id" params) as [[| |project_id| | | |]|] eqn:Hp;
    try discriminate.
  intros H. injection H as <- <-.
  exists start, project_id, (page_rows start project_id db).
  cbn [rows row_count].
  do 5 (split; [reflexivity|]). split; [|split].
  - intros p v c. unfold page_rows.
    rewrite order_rows_In, filter_In, join_In, andb_true_iff, Z.eqb_eq.
    unfold row_url. cbn [fst snd]. tauto.
  - apply order_rows_ascending.
  - intros n. rewrite !dict_get_set_other by discriminate.
    rewrite Hs, Hp. reflexivity.
Qed.

Variable int_of_str : string -> option Z.

Variable default_limit : Z.

(** A [ProjectComponentsToken] that was built holds its project
    id as an integer; [with_first] on it and on an item with a
    [package_url] builds a token again, with the same project id and the
    same limit, that starts after that [package_url]. *)
Theorem project_token_with_first (kwargs : dict R) t (value : dict R) first :
  ProjectComponentsToken int_of_str default_limit kwargs = TokenOk t ->
  dict_get "package_url" value = Some first ->
  exists z t',
    dict_get "project_id" (pagination.keys t) = Some (VInt z) /\
    with_first int_of_str default_limit t value = Some (TokenOk t') /\
    pagination.limit t' = pagination.limit t /\
    dict_get "project_id" (pagination.keys t') = Some (VInt z) /\
    dict_get "starting_package" (pagination.keys t') = Some first.
Proof.
  unfold ProjectComponentsToken. intros Ht Hv.
  destruct (dict_get "project_id" kwargs) as [project_id|]; [|discriminate].
  destruct (py_int int_of_str project_id) as [z| |]; try discriminate.
  injection Ht as <-. exists z.
  unfold with_first. rewrite Hv.
  unfold ProjectComponentsToken, pagination.as_dict, dict_update,
    pagination.PaginationToken_init.
  cbn [fold_left fst snd pagination.limit pagination.keys dict_del dict_set
         dict_get String.eqb Ascii.eqb Bool.eqb py_int default].
  eexists. repeat split.
Qed.

Variable Version : Type.

Variable ProjectComponentRow_model_validate :
  dict R -> list ErrorDetails + ProjectComponentRow_t R Version.

Variable range_contains : R -> Version -> bool.

Variable reverse_url : string -> value R -> value R.

Lemma dict_set_other (k k' : string) (v : value R) d :
  k <> k' -> dict_get k (dict_set k' v d) = dict_get k d.
Proof. apply dict_get_set_other. Qed.

(** [_postprocess_item] on an item that has a [package_url] and
    validates as a project component row changes nothing of the item but
    its [link], which it sets to the URL of the component, and its
    [status]: [Unscored] when the component has no active version,
    whatever its status; [Up-to-date] or [Outdated] when it has one and is
    Active, as the version of the project lies in the active version or
    not; and the status of the component left as it is otherwise. *)
Theorem postprocess_item_status (item : dict R) url project_component :
  dict_get "package_url" item = Some url ->
  ProjectComponentRow_model_validate
    (dict_set "link" (reverse_url "component" url) item)
  = inr project_component ->
  exists item',
    _postprocess_item Version ProjectComponentRow_model_validate
      range_contains reverse_url item = Return item' /\
    dict_get "link" item' = Some (reverse_url "component" url) /\
    (forall k, k <> "link" -> k <> "status" ->
               dict_get k item' = dict_get k item) /\
    match pc_active_version project_component with
    | None => dict_get "status" item' = Some (VStr "Unscored")
    | Some active_version =>
        if py_eq (pc_status project_component) (VStr "Active")
        then dict_get "status" item'
             = Some (VStr (if range_contains active_version
                                (pc_version project_component)
                           then "Up-to-date" else "Outdated"))
        else dict_get "status" item' = dict_get "status" item
    end.
Proof.
  intros Hu Hv. unfold _postprocess_item. rewrite Hu, Hv.
  destruct (pc_active_version project_component) as [active_version|].
  - change (VStr (status_value ACTIVE)) with (VStr "Active" : value R).
    destruct (py_eq (pc_status project_component) (VStr "Active")).
    + destruct (range_contains active_version (pc_version project_component));
        eexists; (split; [reflexivity|]); repeat split.
      * rewrite dict_set_other by discriminate. apply dict_get_set_same.
      * intros k H1 H2. rewrite !dict_set_other by assumption. reflexivity.
      * apply dict_get_set_same.
      * rewrite dict_set_other by discriminate. apply dict_get_set_same.
      * intros k H1 H2. rewrite !dict_set_other by assumption. reflexivity.
      * apply dict_get_set_same.
    + eexists. split; [reflexivity|]. repeat split.
      * apply dict_get_set_same.
      * intros k H1 H2. rewrite dict_set_other by assumption. reflexivity.
      * apply dict_set_other. discriminate.
  - eexists. split; [reflexivity|]. repeat split.
    + rewrite dict_set_other by discriminate. apply dict_get_set_same.
    + intros k H1 H2. rewrite !dict_set_other by assumption. reflexivity.
    + apply dict_get_set_same.
Qed.

End Project.

(** *** On the catalog *)

Lemma project_components_page_witness :
  exists (q : QueryResult string) page,
    COLLECTION_SQL [("starting_package", VStr "" : pyvalue);
                    ("project_id", VInt 10); ("limit", VInt 1)] catalog
    = SqlOk q catalog /\
    rows q = map project_component_record page /\
    row_count q = 2%nat /\
    (forall p v c,
        In (p, v, c) page ->
        p_project_id p = 10 /\ v_id v = p_version_id p) /\
    ascending page.
Proof.
  destruct (project_components_page
              [("starting_package", VStr "" : pyvalue);
               ("project_id", VInt 10); ("limit", VInt 1)] catalog _ _ eq_refl)
    as (start & project_id & page & _ & Hp & _ & Hr & Hc & Hin & Hasc & _).
  injection Hp as <-.
  eexists. exists page. split; [reflexivity|]. split; [exact Hr|].
  split; [reflexivity|]. split; [|exact Hasc].
  intros p v c H. apply Hin in H. tauto.
Defined.

(** Integer literals of up to one digit. *)
Definition digit (s : string) : option Z :=
  if String.eqb s "7" then Some 7
  else if String.eqb s "8" then Some 8
  else None.

Lemma project_token_with_first_witness :
  exists t t',
    ProjectComponentsToken digit 100 [("project_id", VStr "7" : pyvalue)]
    = TokenOk t /\
    with_first digit 100 t [("package_url", VStr "pkg:generic/foo")]
    = Some (TokenOk t') /\
    pagination.limit t' = 100 /\
    dict_get "project_id" (pagination.keys t') = Some (VInt 7) /\
    dict_get "starting_package" (pagination.keys t')
    = Some (VStr "pkg:generic/foo").
Proof.
  destruct (project_token_with_first digit 100
              [("project_id", VStr "7" : pyvalue)] _
              [("package_url", VStr "pkg:generic/foo")]
              (VStr "pkg:generic/foo") eq_refl eq_refl)
    as (z & t' & Hz & Hw & Hl & Hp & Hs).
  eexists. exists t'. split; [reflexivity|].
  split; [exact Hw|]. split; [exact Hl|]. split; [|exact Hs].
  rewrite Hp. simpl in Hz. injection Hz as <-. reflexivity.
Defined.

(** A row model that reads the three members as they are, versions being
    compared with the text of the range. *)
Definition read_row (item : pydict)
  : list ErrorDetails + ProjectComponentRow_t string string :=
  match dict_get "status" item, dict_get "version" item with
  | Some status, Some (VStr version) =>
      inr {| pc_status := status;
             pc_active_version :=
               match dict_get "active_version" item with
               | Some (VStr r) => Some r
               | _ => None
               end;
             pc_version := version |}
  | _, _ => inl [missing "version"]
  end.

Lemma postprocess_item_status_witness :
  exists item',
    _postprocess_item string read_row String.eqb (fun _ url => url)
      [ ("package_url", VStr "pkg:generic/foo"); ("status", VStr "Active");
        ("active_version", VStr "2.1"); ("version", VStr "3.0") ]
    = Return item' /\
    dict_get "status" item' = Some (VStr "Outdated") /\
    dict_get "link" item' = Some (VStr "pkg:generic/foo").
Proof.
  destruct (postprocess_item_status string read_row String.eqb
              (fun _ url => url)
              [ ("package_url", VStr "pkg:generic/foo");
                ("status", VStr "Active");
                ("active_version", VStr "2.1"); ("version", VStr "3.0") ]
              _ _ eq_refl eq_refl)
    as (item' & Hrun & Hlink & _ & Hstatus).
  exists item'. split; [exact Hrun|]. split; [exact Hstatus | exact Hlink].
Defined.

End project_listing.

(** ** More on the aggregate loader *)

Module aggregate_edges.

Import models aggregate_properties.
Local Open Scope list_scope.

Lemma first_failure_none finished :
  first_failure finished [None; None; None; None; None; None; None; None]
  = None.
Proof.
  induction finished as [|i later IH]; [reflexivity|].
  simpl. destruct i as [|[|[|[|[|[|[|[|i]]]]]]]]; try exact IH.
  destruct i; exact IH.
Qed.

(** The entry of a dictionary comprehension under a key is made from the
    last element with that key. *)
Lemma comprehension_from {A B} (key : A -> string) (item : A -> B)
    (xs : list A) (m : gmap string B) (k : string) :
  fold_left (fun m x => <[key x := item x]> m) xs m !! k
  = match last (List.filter (fun x => String.eqb (key x) k) xs) with
    | Some x => Some (item x)
    | None => m !! k
    end.
Proof.
  revert m. induction xs as [|x xs IH]; intros m; [reflexivity|].
  cbn [fold_left List.filter]. rewrite IH.
  destruct (String.eqb_spec (key x) k) as [E|N].
  - rewrite last_cons.
    destruct (last (List.filter _ xs)); [reflexivity|].
    rewrite E. apply lookup_insert_eq.
  - destruct (last (List.filter _ xs)); [reflexivity|].
    apply lookup_insert_ne. exact N.
Qed.

Lemma comprehension_lookup {A B} (key : A -> string) (item : A -> B)
    (xs : list A) (k : string) :
  comprehension key item xs !! k
  = item <$> last (List.filter (fun x => String.eqb (key x) k) xs).
Proof.
  unfold comprehension. rewrite comprehension_from.
  destruct (last _); [reflexivity | apply lookup_empty].
Qed.

Lemma last_filter_map {A} (g : A -> A) (P : A -> bool) (l : list A) :
  last (List.filter P (map g l))
  = g <$> last (List.filter (fun x => P (g x)) l).
Proof.
  induction l as [|x l IH]; [reflexivity|]. cbn [map List.filter].
  destruct (P (g x)); [|exact IH].
  rewrite !last_cons, IH.
  destruct (last (List.filter _ l)); reflexivity.
Qed.

Section Aggregate.

Context {V : Type}.

Variable coerce_project_fact : string -> V -> option V.

Variable application : Connection V.

(** The aggregate that [project] builds from the row of the project and
    from what the eight statements select. *)
Definition assembled (values : ProjectRow.t) (ns : option Namespace.t)
    (pt : option ProjectType.t) (fs : list (ProjectFact.t V))
    (ls : list ProjectLink.t) (us : list ProjectURL.t)
    (ids : list ProjectIdentifier.t) (cs : list ProjectComponent.t)
    (ds : list ProjectDependency.t) : Project.t V :=
  {| Project.id := ProjectRow.id values;
     Project.created_at := ProjectRow.created_at values;
     Project.created_by := ProjectRow.created_by values;
     Project.last_modified_at := ProjectRow.last_modified_at values;
     Project.last_modified_by := ProjectRow.last_modified_by values;
     Project.namespace := ns;
     Project.project_type := pt;
     Project.name := ProjectRow.name values;
     Project.slug := ProjectRow.slug values;
     Project.description := ProjectRow.description values;
     Project.environments := ProjectRow.environments values;
     Project.archived := ProjectRow.archived values;
     Project.gitlab_project_id := ProjectRow.gitlab_project_id values;
     Project.sentry_project_slug := ProjectRow.sentry_project_slug values;
     Project.sonarqube_project_key := ProjectRow.sonarqube_project_key values;
     Project.pagerduty_service_id := ProjectRow.pagerduty_service_id values;
     Project.facts :=
       comprehension ProjectFact.name ProjectFact.value
         (map (ProjectFact_post_init coerce_project_fact) fs);
     Project.identifiers :=
       comprehension ProjectIdentifier.integration_name
         ProjectIdentifier.external_id ids;
     Project.links := comprehension ProjectLink.link_type ProjectLink.url ls;
     Project.urls := comprehension ProjectURL.environment ProjectURL.url us;
     Project.project_score := ProjectRow.project_score values;
     Project.components :=
       map (fun c => (ProjectComponent.package_url c,
                      ProjectComponent.version c)) cs;
     Project.component_versions :=
       map (fun c => ProjectComponent.package_url c ++ "@" ++
                     ProjectComponent.version c)%string cs;
     Project.dependencies := map ProjectDependency.dependency_id ds |}.

Lemma project_run finished project_id values ns pt fs ls us ids cs ds :
  execute_Project_SQL application project_id = inr (Some values) ->
  execute_Namespace_SQL application (ProjectRow.namespace_id values)
    = inr ns ->
  execute_ProjectType_SQL application (ProjectRow.project_type_id values)
    = inr pt ->
  execute_ProjectFact_COLLECTION_SQL application project_id = inr fs ->
  execute_ProjectLink_COLLECTION_SQL application project_id = inr ls ->
  execute_ProjectURL_COLLECTION_SQL application project_id = inr us ->
  execute_ProjectIdentifier_COLLECTION_SQL application project_id = inr ids ->
  execute_ProjectComponent_COLLECTION_SQL application project_id = inr cs ->
  execute_ProjectDependency_COLLECTION_SQL application project_id = inr ds ->
  project coerce_project_fact application finished project_id
  = Return (Some (assembled values ns pt fs ls us ids cs ds)).
Proof.
  intros H0 H1 H2 H3 H4 H5 H6 H7 H8.
  unfold project, namespace, project_type, project_facts, project_links,
    project_urls, project_identifiers, project_components,
    project_dependencies.
  rewrite H0, H1, H2, H3, H4, H5, H6, H7, H8.
  unfold gather, _load, _load_collection, failure.
  rewrite first_failure_none, !map_id. reflexivity.
Qed.

(** When the row of the project is there and none of the eight
    statements of the sub-loads fails, [project] returns the aggregate,
    the same whatever the order in which the sub-loads finish; a
    namespace or a project type whose row is missing is [None] in it; its
    [components] and [component_versions] come from the same rows, in the
    same order, the second being the [package_url] and the version of the
    first joined by an at sign; and its dependencies are the
    [dependency_id] of the rows. *)
Theorem project_load_succeeds finished project_id values ns pt fs ls us ids
    cs ds :
  execute_Project_SQL application project_id = inr (Some values) ->
  execute_Namespace_SQL application (ProjectRow.namespace_id values)
    = inr ns ->
  execute_ProjectType_SQL application (ProjectRow.project_type_id values)
    = inr pt ->
  execute_ProjectFact_COLLECTION_SQL application project_id = inr fs ->
  execute_ProjectLink_COLLECTION_SQL application project_id = inr ls ->
  execute_ProjectURL_COLLECTION_SQL application project_id = inr us ->
  execute_ProjectIdentifier_COLLECTION_SQL application project_id = inr ids ->
  execute_ProjectComponent_COLLECTION_SQL application project_id = inr cs ->
  execute_ProjectDependency_COLLECTION_SQL application project_id = inr ds ->
  exists p,
    (forall order,
        project coerce_project_fact application order project_id
        = Return (Some p)) /\
    project coerce_project_fact application finished project_id
      = Return (Some p) /\
    Project.namespace p = ns /\
    Project.project_type p = pt /\
    Project.components p
    = map (fun c => (ProjectComponent.package_url c,
                     ProjectComponent.version c)) cs /\
    Project.component_versions p
    = map (fun c => (fst c ++ "@" ++ snd c)%string) (Project.components p) /\
    Project.dependencies p = map ProjectDependency.dependency_id ds.
Proof.
  intros H0 H1 H2 H3 H4 H5 H6 H7 H8.
  exists (assembled values ns pt fs ls us ids cs ds).
  split; [|split].
  - intros order. apply project_run; assumption.
  - apply project_run; assumption.
  - cbn [assembled Project.namespace Project.project_type Project.components
           Project.component_versions Project.dependencies].
    repeat split. rewrite map_map. reflexivity.
Qed.

(** In the aggregate that [project] returns, each of the four
    dictionaries has, under a key, what the last row with that key
    gives, and no entry for a key that no row has; the value of a fact is
    the coerced value of that row, or the value as selected when the
    coercion raises ValueError. *)
Theorem project_keyed_by_last_row finished project_id values ns pt fs ls us
    ids cs ds :
  execute_Project_SQL application project_id = inr (Some values) ->
  execute_Namespace_SQL application (ProjectRow.namespace_id values)
    = inr ns ->
  execute_ProjectType_SQL application (ProjectRow.project_type_id values)
    = inr pt ->
  execute_ProjectFact_COLLECTION_SQL application project_id = inr fs ->
  execute_ProjectLink_COLLECTION_SQL application project_id = inr ls ->
  execute_ProjectURL_COLLECTION_SQL application project_id = inr us ->
  execute_ProjectIdentifier_COLLECTION_SQL application project_id = inr ids ->
  execute_ProjectComponent_COLLECTION_SQL application project_id = inr cs ->
  execute_ProjectDependency_COLLECTION_SQL application project_id = inr ds ->
  exists p,
    project coerce_project_fact application finished project_id
      = Return (Some p) /\
    (forall k,
        Project.facts p !! k
        = (fun f => default (ProjectFact.value f)
                      (coerce_project_fact (ProjectFact.data_type f)
                         (ProjectFact.value f)))
          <$> last (List.filter
                      (fun f => String.eqb (ProjectFact.name f) k) fs)) /\
    (forall k,
        Project.links _ p !! k
        = ProjectLink.url
          <$> last (List.filter
                      (fun l => String.eqb (ProjectLink.link_type l) k) ls)) /\
    (forall k,
        Project.urls _ p !! k
        = ProjectURL.url
          <$> last (List.filter
                      (fun u => String.eqb (ProjectURL.environment u) k) us)) /\
    (forall k,
        Project.identifiers _ p !! k
        = ProjectIdentifier.external_id
          <$> last (List.filter
                      (fun i => String.eqb
                                  (ProjectIdentifier.integration_name i) k)
                      ids)).
Proof.
  intros H0 H1 H2 H3 H4 H5 H6 H7 H8.
  exists (assembled values ns pt fs ls us ids cs ds).
  split; [apply project_run; assumption|].
  cbn [assembled Project.facts Project.links Project.urls Project.identifiers].
  split; [|repeat split; intros k; apply comprehension_lookup].
  intros k. rewrite comprehension_lookup, last_filter_map.
  assert (Hname : forall f,
    ProjectFact.name (ProjectFact_post_init coerce_project_fact f)
    = ProjectFact.name f).
  { intros f. unfold ProjectFact_post_init.
    destruct (coerce_project_fact _ _); reflexivity. }
  assert (Hfilter :
    List.filter
      (fun x => String.eqb
                  (ProjectFact.name
                     (ProjectFact_post_init coerce_project_fact x)) k) fs
    = List.filter (fun f => String.eqb (ProjectFact.name f) k) fs).
  { apply filter_ext. intros f. rewrite Hname. reflexivity. }
  rewrite Hfilter.
  destruct (last _) as [f|]; [|reflexivity]. cbn [fmap option_fmap option_map].
  f_equal. unfold ProjectFact_post_init.
  destruct (coerce_project_fact _ _); reflexivity.
Qed.

End Aggregate.

(** *** A project with two rows for one fact *)

Definition fact (id : Z) (name value data_type : string)
  : ProjectFact.t string :=
  {| ProjectFact.id := id; ProjectFact.name := name;
     ProjectFact.recorded_at := None; ProjectFact.recorded_by := None;
     ProjectFact.value := value; ProjectFact.fact_type := "free-form";
     ProjectFact.data_type := data_type; ProjectFact.description := None;
     ProjectFact.ui_options := None; ProjectFact.score := 0;
     ProjectFact.weight := 0 |}.

Definition all_up : Connection string :=
  {| execute_Project_SQL :=
       fun id => if Z.eqb id 1 then inr (Some project_1) else inr None;
     execute_Namespace_SQL := fun _ => inr None;
     execute_ProjectType_SQL := fun _ => inr None;
     execute_ProjectFact_COLLECTION_SQL :=
       fun _ => inr [ fact 1 "language" "python" "string";
                      fact 2 "language" "rust" "string";
                      fact 3 "coverage" "n/a" "integer" ];
     execute_ProjectLink_COLLECTION_SQL := fun _ => inr [];
     execute_ProjectURL_COLLECTION_SQL := fun _ => inr [];
     execute_ProjectIdentifier_COLLECTION_SQL := fun _ => inr [];
     execute_ProjectComponent_COLLECTION_SQL :=
       fun _ => inr [ {| ProjectComponent.name := "foo";
                         ProjectComponent.package_url := "pkg:generic/foo";
                         ProjectComponent.status := "Active";
                         ProjectComponent.version := "2.1" |} ];
     execute_ProjectDependency_COLLECTION_SQL := fun _ => inr [] |}.

(** A coercion that knows strings only. *)
Definition strings_only (data_type : string) (value : string)
  : option string :=
  if String.eqb data_type "string" then Some value else None.

Lemma project_load_succeeds_witness :
  exists p,
    (forall order, project strings_only all_up order 1 = Return (Some p)) /\
    Project.namespace p = None /\
    Project.component_versions p = ["pkg:generic/foo@2.1"].
Proof.
  destruct (project_load_succeeds strings_only all_up [] 1
              project_1 _ _ _ _ _ _ _ _
              eq_refl eq_refl eq_refl eq_refl eq_refl eq_refl eq_refl
              eq_refl eq_refl)
    as (p & Hall & _ & Hns & _ & Hc & Hv & _).
  exists p. split; [exact Hall|]. split; [exact Hns|].
  rewrite Hv, Hc. reflexivity.
Defined.

Lemma project_keyed_by_last_row_witness :
  exists p,
    project strings_only all_up [] 1 = Return (Some p) /\
    Project.facts p !! "language" = Some "rust" /\
    Project.facts p !! "coverage" = Some "n/a" /\
    Project.facts p !! "owner" = None.
Proof.
  destruct (project_keyed_by_last_row strings_only all_up [] 1
              project_1 _ _ _ _ _ _ _ _
              eq_refl eq_refl eq_refl eq_refl eq_refl eq_refl eq_refl
              eq_refl eq_refl)
    as (p & Hrun & Hfacts & _).
  exists p. split; [exact Hrun|].
  rewrite !Hfacts. repeat split.
Defined.

End aggregate_edges.
